(** * Smart water-usage monitoring: anomaly detection and usage accounting

    A shallow embedding of the numeric core of the dashboard:

    - [detect_anomalies]                (data_processing.py)
    - the usage loop of [generate_demo_historical_data] (data_processing.py)
      and of [generate_demo_data]      (dashboard.py)
    - [FirebaseManager._calculate_usage_for_period] (firebase_manager.py)

    Python floats are modelled by exact rationals [Q]: no rounding error,
    no overflow.  The special values a float computation can produce (NaN,
    infinities) are explicit constructors; the inputs hold finite numbers,
    missing values or non-numeric objects.  A standard deviation is the
    square root of a rational and is kept exact by storing its square;
    [FloatFacts] relates the comparisons on this form to the real
    numbers.  Random draws are inputs of the loop that consumes them. *)

From Stdlib Require Import Reals Qreals Lra.
From Stdlib Require Import QArith Qabs Qround Lqa Lia ZArith Sorted.
From stdpp Require Import base option list gmap strings.

Local Open Scope Q_scope.

(** ** Python values and exceptions *)

Module Py.

(** Exceptions that the modelled code paths can meet. *)
Inductive exn : Type :=
| KeyError
| ValueError
| TypeError
| DataError
| IndexError.

(** Outcome of a call: a returned value or a raised exception. *)
Inductive result (A : Type) : Type :=
| Ok (a : A)
| Raise (e : exn).
Arguments Ok {A} a.
Arguments Raise {A} e.

Definition bind {A B} (m : result A) (k : A -> result B) : result B :=
  match m with
  | Ok a => k a
  | Raise e => Raise e
  end.

(** [try: body except Exception as e: handler e] *)
Definition try_except {A} (body : result A) (handler : exn -> result A)
  : result A :=
  match body with
  | Ok a => Ok a
  | Raise e => handler e
  end.

Definition Qlt_bool (x y : Q) : bool := negb (Qle_bool y x).

(** Python's builtin [max(a, b)]: [b] when [b > a], else [a]. *)
Definition max (a b : Q) : Q := if Qlt_bool a b then b else a.

(** Round half to even, as [round] does on an exactly representable
    value. *)
Definition round_half_even (x : Q) : Z :=
  let f := Qfloor x in
  let r := x - inject_Z f in
  if Qlt_bool r (1 # 2) then f
  else if Qlt_bool (1 # 2) r then (f + 1)%Z
  else if Z.even f then f else (f + 1)%Z.

(** [round(x, 2)] *)
Definition round2 (x : Q) : Q :=
  inject_Z (round_half_even (x * 100)) / 100.

End Py.

Notation "'let!' x ':=' m 'in' k" := (Py.bind m (fun x => k))
  (at level 10, x name, m at level 100, k at level 200).

(** ** pandas: the fragment used by [detect_anomalies] *)

Module Pd.
Import Py.

(** An entry of an input column: a finite number, a missing value, or a
    non-numeric object (which makes the column of dtype object). *)
Inductive cell : Type :=
| Num (q : Q)
| NaN
| Obj (s : string).

(** A frame: its row labels and its named columns. *)
Record DataFrame : Type := mkDataFrame {
  index : list Z;
  columns : gmap string (list cell)
}.

(** Every column has one entry per row label. *)
Definition wf (df : DataFrame) : Prop :=
  forall (c : string) (xs : list cell),
    columns df !! c = Some xs -> length xs = length (index df).

(** [df.empty]: some axis has length 0. *)
Definition empty (df : DataFrame) : bool :=
  bool_decide (length (index df) = 0%nat)
  || bool_decide (dom (columns df) = (∅ : gset string)).

(** [column in df.columns] *)
Definition has_column (df : DataFrame) (column : string) : bool :=
  bool_decide (is_Some (columns df !! column)).

(** [df[column]] *)
Definition getitem (df : DataFrame) (column : string)
  : result (list cell) :=
  match columns df !! column with
  | Some xs => Ok xs
  | None => Raise KeyError
  end.

(** The result of a float computation. [Quot d v] is the exact value
    [d / sqrt v] with [0 < v]; a rational [q] is [Quot q 1]. *)
Inductive float : Type :=
| FNaN
| Inf (negative : bool)
| Quot (d v : Q).

(** An entry of an output series: a boolean or a missing value. *)
Inductive entry : Type :=
| EBool (b : bool)
| ENaN.

Record Series : Type := mkSeries {
  s_index : list Z;
  s_values : list entry
}.

(** [pd.Series(index=idx)]: one missing value per label. *)
Definition Series_nan (idx : list Z) : Series :=
  mkSeries idx (replicate (length idx) ENaN).

(** [pd.Series(False, index=idx)] *)
Definition Series_false (idx : list Z) : Series :=
  mkSeries idx (replicate (length idx) (EBool false)).

(** *** Rolling windows *)

(** The numeric view of a column taken by a rolling aggregation: the
    conversion to float64 fails on an object column. *)
Definition as_float (c : cell) : result (option Q) :=
  match c with
  | Num q => Ok (Some q)
  | NaN => Ok None
  | Obj _ => Raise DataError
  end.

Fixpoint prep_values (xs : list cell) : result (list (option Q)) :=
  match xs with
  | [] => Ok []
  | c :: xs' =>
      let! v := as_float c in
      let! vs := prep_values xs' in
      Ok (v :: vs)
  end.

(** [np.clip(x, lo, hi)] *)
Definition clip (x lo hi : Z) : Z := Z.min (Z.max x lo) hi.

(** Bounds [start, stop) of the fixed window of size [w] centred at
    position [i] in a series of [n] values:
    [offset = (w - 1) // 2], [stop = i + 1 + offset],
    [start = stop - w], both clipped to [0, n]. *)
Definition window_bounds (n w i : nat) : nat * nat :=
  let offset := ((Z.of_nat w - 1) / 2)%Z in
  let stop := (Z.of_nat i + 1 + offset)%Z in
  let start := (stop - Z.of_nat w)%Z in
  (Z.to_nat (clip start 0 (Z.of_nat n)), Z.to_nat (clip stop 0 (Z.of_nat n))).

Definition window_at {A} (xs : list A) (w i : nat) : list A :=
  let '(start, stop) := window_bounds (length xs) w i in
  take (stop - start) (drop start xs).

(** Observations of a window: its non-missing values. *)
Definition observations (ws : list (option Q)) : list Q :=
  omap (fun v => v) ws.

Definition Qsum (l : list Q) : Q := foldr Qplus 0 l.

Definition Qnat (n : nat) : Q := inject_Z (Z.of_nat n).

(** Sum of squared differences from [m]. *)
Definition ssqdm (m : Q) (l : list Q) : Q :=
  Qsum ((fun x => (x - m) * (x - m)) <$> l).

(** Mean of one window with [min_periods = minp]. *)
Definition roll_mean (minp : nat) (ws : list (option Q)) : option Q :=
  let obs := observations ws in
  let nobs := length obs in
  if (minp <=? nobs)%nat && (0 <? nobs)%nat
  then Some (Qsum obs / Qnat nobs)
  else None.

(** Variance of one window with [ddof = 1]. *)
Definition roll_var (minp : nat) (ws : list (option Q)) : option Q :=
  let ddof := 1%nat in
  let obs := observations ws in
  let nobs := length obs in
  if (Nat.max minp 1 <=? nobs)%nat && (ddof <? nobs)%nat
  then
    let m := Qsum obs / Qnat nobs in
    Some (ssqdm m obs / Qnat (nobs - ddof))
  else None.

(** [series.rolling(window=window, center=True)]: the window must be a
    non-negative integer; [min_periods] defaults to the window size. *)
Definition rolling (xs : list cell) (window : Z) : result (list cell * nat) :=
  if (window <? 0)%Z then Raise ValueError
  else Ok (xs, Z.to_nat window).

Definition rolling_apply (agg : nat -> list (option Q) -> option Q)
    (r : list cell * nat) : result (list (option Q)) :=
  let '(xs, w) := r in
  let! vs := prep_values xs in
  Ok ((fun i => agg w (window_at vs w i)) <$> seq 0 (length vs)).

(** [.mean()] *)
Definition mean := rolling_apply roll_mean.

(** [.std()]: the square root of the variance, kept as its square. *)
Definition std := rolling_apply roll_var.

(** *** Element-wise arithmetic on aligned series *)

(** [x - m] *)
Definition sub_cell (x : cell) (m : option Q) : result (option Q) :=
  match x with
  | Obj _ => Raise TypeError
  | NaN => Ok None
  | Num q => Ok (match m with Some m' => Some (q - m') | None => None end)
  end.

Fixpoint sub (xs : list cell) (ms : list (option Q))
  : result (list (option Q)) :=
  match xs, ms with
  | x :: xs', m :: ms' =>
      let! d := sub_cell x m in
      let! ds := sub xs' ms' in
      Ok (d :: ds)
  | _, _ => Ok []
  end.

(** [d / sqrt v]: float division, which never raises; [0/0] is NaN and
    [d/0] is an infinity of the sign of [d]. *)
Definition div_std (d : option Q) (v : option Q) : float :=
  match d, v with
  | Some d', Some v' =>
      if Qlt_bool 0 v' then Quot d' v'
      else if Qeq_bool d' 0 then FNaN
      else Inf (Qlt_bool d' 0)
  | _, _ => FNaN
  end.

Definition div (ds vs : list (option Q)) : list float :=
  zip_with div_std ds vs.

(** [abs(z)] *)
Definition fabs (z : float) : float :=
  match z with
  | FNaN => FNaN
  | Inf _ => Inf false
  | Quot d v => Quot (Qabs d) v
  end.

(** [z > t] for a finite [t]; false on NaN.  For [0 < v],
    [d / sqrt v > t] holds iff either [t < 0] and ([0 <= d] or
    [d*d < t*t*v]), or [0 <= t], [0 < d] and [t*t*v < d*d]. *)
Definition gt (z : float) (t : Q) : bool :=
  match z with
  | FNaN => false
  | Inf negative => negb negative
  | Quot d v =>
      if Qlt_bool t 0
      then Qle_bool 0 d || Qlt_bool (d * d) (t * t * v)
      else Qlt_bool 0 d && Qlt_bool (t * t * v) (d * d)
  end.

End Pd.

(** ** data_processing.detect_anomalies *)

Module DataProcessing.
Import Py Pd.

(** The body of the [try] block. *)
Definition detect_anomalies_body (df : DataFrame) (column : string)
    (window : Z) (threshold : Q) : result Series :=
  if empty df || negb (has_column df column)
  then Ok (Series_nan (index df))
  else
    let! col := getitem df column in
    let! r := rolling col window in
    let! rolling_mean := mean r in
    let! rolling_std := std r in
    let! diff := sub col rolling_mean in
    let z_scores := div diff rolling_std in
    let anomalies := (fun z => EBool (gt (fabs z) threshold)) <$> z_scores in
    Ok (mkSeries (index df) anomalies).

Definition detect_anomalies (df : DataFrame) (column : string)
    (window : Z) (threshold : Q) : result Series :=
  try_except (detect_anomalies_body df column window threshold)
    (fun _ => Ok (Series_false (index df))).

End DataProcessing.

(** ** The usage loop of the demo-data generators

    [generate_demo_historical_data] (data_processing.py) and
    [generate_demo_data] (dashboard.py) run the same loop over a list of
    datetimes; the first rounds what it stores to two decimals, the second
    stores the values as they are. *)

Module Usage.
Import Py.

(** A naive [datetime]. *)
Record datetime : Type := mkDatetime {
  year : Z;
  month : Z;
  day : Z;
  hour : Z;
  minute : Z;
  second : Z
}.

(** The [daily_pattern] dict of both generators. *)
Definition daily_pattern : gmap Z Q :=
  list_to_map
    [
      (0%Z, 0.3); (1%Z, 0.2); (2%Z, 0.1); (3%Z, 0.1);
      (4%Z, 0.2); (5%Z, 0.5); (6%Z, 1.0); (7%Z, 1.5);
      (8%Z, 1.2); (9%Z, 0.8); (10%Z, 0.7); (11%Z, 0.8);
      (12%Z, 1.0); (13%Z, 0.9); (14%Z, 0.7); (15%Z, 0.6);
      (16%Z, 0.7); (17%Z, 1.2); (18%Z, 1.8); (19%Z, 1.5);
      (20%Z, 1.2); (21%Z, 0.9); (22%Z, 0.6); (23%Z, 0.4) ].

#[global] Arguments daily_pattern : simpl never.

(** Which generator runs the loop. *)
Inductive generator : Type :=
| HistoricalData   (* data_processing.generate_demo_historical_data *)
| DemoData.        (* dashboard.generate_demo_data *)

(** What the generator does to a value before storing it:
    [round(x, 2)] or nothing. *)
Definition stored (g : generator) (x : Q) : Q :=
  match g with
  | HistoricalData => round2 x
  | DemoData => x
  end.

(** The loop variables [daily_sum], [hourly_sum], [last_day],
    [last_hour]. *)
Record sums : Type := mkSums {
  daily_sum : Q;
  hourly_sum : Q;
  last_day : Z;
  last_hour : Z
}.

(** The two draws of one iteration: [np.random.normal(0, 0.1)] for the
    flow and [np.random.normal(0, 0.2)] for the pressure. *)
Record draws : Type := mkDraws {
  flow_noise : Q;
  pressure_noise : Q
}.

(** What one iteration appends to the five lists. *)
Record row : Type := mkRow {
  flow_rate : Q;
  pressure : Q;
  volume : Q;
  hourly_usage : Q;
  daily_usage : Q
}.

(** One iteration: the outcome of its two tests, the loop variables
    after it, and the appended values. *)
Record iteration : Type := mkIteration {
  day_reset : bool;
  hour_reset : bool;
  sums_after : sums;
  emitted : row
}.

(** [date.day != last_day] *)
Definition day_changed (date : datetime) (s : sums) : bool :=
  negb (day date =? last_day s)%Z.

(** [date.hour != last_hour] *)
Definition hour_changed (date : datetime) (s : sums) : bool :=
  negb (hour date =? last_hour s)%Z.

(** The body of the [for] loop. *)
Definition step (g : generator) (date : datetime) (d : draws) (s : sums)
  : iteration :=
  let hour_of_day := hour date in
  let day_reset := day_changed date s in
  let s :=
    if day_reset
    then mkSums 0 (hourly_sum s) (day date) (last_hour s)
    else s in
  let hour_reset := hour_changed date s in
  let s :=
    if hour_reset
    then mkSums (daily_sum s) 0 (last_day s) (hour date)
    else s in
  let base_flow := default 0.5 (daily_pattern !! hour_of_day) * 8.0 in
  let flow := base_flow * (1 + flow_noise d) in
  let base_pressure := 3.5 + pressure_noise d in
  let vol := stored g (flow * 60 / 1000) in
  let hourly_sum' := hourly_sum s + vol in
  let daily_sum' := daily_sum s + vol in
  mkIteration day_reset hour_reset
    (mkSums daily_sum' hourly_sum' (last_day s) (last_hour s))
    (mkRow (max 0 (stored g flow))
           (max 0.5 (stored g base_pressure))
           vol
           (stored g hourly_sum')
           (stored g daily_sum')).

(** The [for] loop from iteration [i] on; [noise i] holds the draws of
    iteration [i]. *)
Fixpoint loop (g : generator) (noise : nat -> draws)
    (dates : list datetime) (i : nat) (s : sums) : list iteration :=
  match dates with
  | [] => []
  | date :: dates' =>
      let it := step g date (noise i) s in
      it :: loop g noise dates' (S i) (sums_after it)
  end.

(** The loop with its initialisation; [dates[0]] raises on an empty
    list. *)
Definition usage_trace (g : generator) (noise : nat -> draws)
    (dates : list datetime) : result (list iteration) :=
  match dates with
  | [] => Raise IndexError
  | d0 :: _ => Ok (loop g noise dates 0 (mkSums 0 0 (day d0) (hour d0)))
  end.

(** The columns built by the loop, row by row.  The [timestamp] column
    and the three anomalies injected afterwards into [flow_rate] and
    [pressure] are not part of the loop. *)
Definition usage_rows (g : generator) (noise : nat -> draws)
    (dates : list datetime) : result (list row) :=
  let! trace := usage_trace g noise dates in
  Ok (emitted <$> trace).

(** The loop as each generator runs it. *)
Definition generate_demo_historical_data := usage_rows HistoricalData.

Definition generate_demo_data := usage_rows DemoData.

(** Two datetimes in the same calendar day, and in the same hour of the
    same calendar day. *)
Definition same_day (d d' : datetime) : Prop :=
  year d = year d' /\ month d = month d' /\ day d = day d'.

Definition same_hour (d d' : datetime) : Prop :=
  same_day d d' /\ hour d = hour d'.

(** *** The dates the generators build

    Both generators build [dates] with
    [pd.date_range(start, end, freq='1H')]: naive datetimes one hour apart,
    here given by their number. *)

Definition is_leap (y : Z) : bool :=
  ((y mod 4 =? 0) && negb (y mod 100 =? 0) || (y mod 400 =? 0))%Z.

Definition days_in_month (y m : Z) : Z :=
  if (m =? 2)%Z then (if is_leap y then 29 else 28)%Z
  else if ((m =? 4) || (m =? 6) || (m =? 9) || (m =? 11))%Z then 30%Z
  else 31%Z.

Definition next_day (d : datetime) : datetime :=
  if (day d <? days_in_month (year d) (month d))%Z
  then mkDatetime (year d) (month d) (day d + 1) (hour d) (minute d) (second d)
  else if (month d <? 12)%Z
  then mkDatetime (year d) (month d + 1) 1 (hour d) (minute d) (second d)
  else mkDatetime (year d + 1) 1 1 (hour d) (minute d) (second d).

Definition next_hour (d : datetime) : datetime :=
  if (hour d <? 23)%Z
  then mkDatetime (year d) (month d) (day d) (hour d + 1) (minute d) (second d)
  else
    let d' := next_day d in
    mkDatetime (year d') (month d') (day d') 0 (minute d) (second d).

Fixpoint date_range (start : datetime) (periods : nat) : list datetime :=
  match periods with
  | O => []
  | S n => start :: date_range (next_hour start) n
  end.

(** A datetime of the calendar. *)
Definition valid (d : datetime) : Prop :=
  (1 <= month d <= 12 /\
   1 <= day d <= days_in_month (year d) (month d) /\
   0 <= hour d <= 23)%Z.

End Usage.

(** ** firebase_manager.FirebaseManager._calculate_usage_for_period *)

Module Firebase.
Import Py.

(** A reading: a dict from field names to numbers. *)
Abbreviation reading := (gmap string Q).

(** [x.get('timestamp', 0)] *)
Definition timestamp_key (x : reading) : Q :=
  default 0 (x !! "timestamp"%string).

(** [x.get('total_volume', 0)] *)
Definition total_volume (x : reading) : Q :=
  default 0 (x !! "total_volume"%string).

(** [list.sort(key=...)] is stable and compares keys with [<] only:
    an element is moved behind the elements of strictly smaller key. *)
Fixpoint insert_by (key : reading -> Q) (x : reading) (l : list reading)
  : list reading :=
  match l with
  | [] => [x]
  | y :: l' =>
      if Qlt_bool (key y) (key x) then y :: insert_by key x l'
      else x :: y :: l'
  end.

Definition sort_by (key : reading -> Q) (l : list reading) : list reading :=
  foldr (insert_by key) [] l.

Section Manager.
(** [self.get_historical_readings]: it recovers from its own failures
    and always returns a list. *)
Variable get_historical_readings : Q -> Q -> list reading.

Definition calculate_usage_for_period (start_timestamp end_timestamp : Q)
  : result Q :=
  let readings := get_historical_readings start_timestamp end_timestamp in
  match readings with
  | [] => Ok 0
  | _ =>
      let readings := sort_by timestamp_key readings in
      if (length readings <? 2)%nat then Ok 0
      else
        match head readings, last readings with
        | Some first_reading, Some last_reading =>
            let first_volume := total_volume first_reading in
            let last_volume := total_volume last_reading in
            let usage := max 0 (last_volume - first_volume) in
            Ok usage
        | _, _ => Raise IndexError
        end
  end.
End Manager.

End Firebase.

(** ** The specification's interval volumes *)

Module Spec.

(** [interval_volume[i] = max(0, total_volume[i] - total_volume[i-1])],
    summed over a list of cumulative volumes. *)
Fixpoint interval_volume_sum (prev : Q) (volumes : list Q) : Q :=
  match volumes with
  | [] => 0
  | v :: volumes' =>
      Py.max 0 (v - prev) + interval_volume_sum v volumes'
  end.

Definition period_usage (volumes : list Q) : Q :=
  match volumes with
  | [] => 0
  | v0 :: volumes' => interval_volume_sum v0 volumes'
  end.

End Spec.

(** ** The detector position by position

    What [detect_anomalies] computes at one position, read off its
    series-wide operations; [DetectorFacts.detect_anomalies_eq] proves the
    two agree. *)

Module DetectorView.
Import Py Pd.

(** The numeric view of a cell when the conversion succeeds. *)
Definition float_of (c : cell) : option Q :=
  match c with
  | Num q => Some q
  | _ => None
  end.

(** [x - m] on the numeric views. *)
Definition sub_opt (x m : option Q) : option Q :=
  match x, m with
  | Some q, Some m' => Some (q - m')
  | _, _ => None
  end.

(** The flag computed at position [i] of the numeric view [vs]. *)
Definition flag_at (vs : list (option Q)) (w : nat) (t : Q) (i : nat) : bool :=
  let ws := window_at vs w i in
  gt (fabs (div_std (sub_opt (default None (vs !! i)) (roll_mean w ws))
                    (roll_var w ws))) t.

(** The column is of dtype object. *)
Definition is_obj (c : cell) : bool :=
  match c with Obj _ => true | _ => false end.

Definition has_obj (xs : list cell) : bool := existsb is_obj xs.

End DetectorView.

(** ** Examples *)

Module Examples.
Import Py Pd DataProcessing.

(** Thirty readings of 5.0 with a spike of 500.0 at position 15. *)
Definition spike_column : list cell :=
  replicate 15 (Num 5) ++ [Num 500] ++ replicate 14 (Num 5).

Definition spike_frame : DataFrame :=
  mkDataFrame (Z.of_nat <$> seq 0 30) {[ "flow_rate"%string := spike_column ]}.

(** A column holding a non-numeric entry. *)
Definition text_column : list cell :=
  [Num 5; Num 6; Obj "n/a"; Num 5].

Definition text_frame : DataFrame :=
  mkDataFrame [0; 1; 2; 3]%Z {[ "flow_rate"%string := text_column ]}.

(** Draws that leave the flow and the pressure at their base values,
    and draws ten standard deviations below. *)
Definition quiet : nat -> Usage.draws := fun _ => Usage.mkDraws 0 0.

Definition low_draws : nat -> Usage.draws := fun _ => Usage.mkDraws (-2) 0.

(** 09:58, 09:59, 10:01 and 10:02 of one day. *)
Definition morning : list Usage.datetime :=
  [ Usage.mkDatetime 2024 1 5 9 58 0; Usage.mkDatetime 2024 1 5 9 59 0;
    Usage.mkDatetime 2024 1 5 10 1 0; Usage.mkDatetime 2024 1 5 10 2 0 ].

(** Two readings exactly 24 hours apart. *)
Definition day_apart : list Usage.datetime :=
  [ Usage.mkDatetime 2024 1 1 10 0 0; Usage.mkDatetime 2024 1 2 10 0 0 ].



(** The iterations of a run, none when it raises. *)
Definition run (g : Usage.generator) (noise : nat -> Usage.draws)
    (dates : list Usage.datetime) : list Usage.iteration :=
  match Usage.usage_trace g noise dates with
  | Py.Ok trace => trace
  | Py.Raise _ => []
  end.




(** Three readings in timestamp order with a growing counter. *)
Definition metered : list Firebase.reading :=
  [ {[ "timestamp"%string := 10; "total_volume"%string := 3 ]};
    {[ "timestamp"%string := 20; "total_volume"%string := 9 ]};
    {[ "timestamp"%string := 30; "total_volume"%string := 12.5 ]} ].

(** Two readings, the second without a timestamp. *)
Definition untimed : list Firebase.reading :=
  [ {[ "timestamp"%string := 10; "total_volume"%string := 8 ]};
    {[ "total_volume"%string := 1 ]} ].

(** Four equal readings. *)
Definition flat_column : list cell := replicate 4 (Num 7).

Definition flat_frame : DataFrame :=
  mkDataFrame [0; 1; 2; 3]%Z {[ "pressure"%string := flat_column ]}.

End Examples.

(** ** The generators as a whole

    After the usage loop both generators pick three rows at random and
    scale their flow and pressure.  The [timestamp] column is left out. *)

Module Generators.
Import Py Usage.

(** [np.random.choice(n, size=3, replace=False)]: the sample drawn is an
    input; the call raises when the population is smaller than the
    sample. *)
Definition choice (n : nat) (sample : list nat) : result (list nat) :=
  if (n <? 3)%nat then Raise ValueError else Ok sample.

(** What [np.random.choice(n, size=3, replace=False)] can return: three
    distinct positions below [n]. *)
Definition is_sample (n : nat) (sample : list nat) : Prop :=
  length sample = 3%nat /\ NoDup sample /\
  Forall (fun idx => (idx < n)%nat) sample.

(** [df.loc[idx]]: raises on a label that the index does not hold. *)
Definition loc (rows : list row) (idx : nat) : result row :=
  match rows !! idx with
  | Some r => Ok r
  | None => Raise KeyError
  end.

Definition set_flow_rate (v : Q) (r : row) : row :=
  mkRow v (pressure r) (volume r) (hourly_usage r) (daily_usage r).

Definition set_pressure (v : Q) (r : row) : row :=
  mkRow (flow_rate r) v (volume r) (hourly_usage r) (daily_usage r).

(** The body of [for idx in anomaly_indices]. *)
Definition inject (rows : list row) (idx : nat) : result (list row) :=
  if (0 <? idx)%nat then
    let! r := loc rows idx in
    let rows := <[idx := set_flow_rate (flow_rate r * 3) r]> rows in
    let! r := loc rows idx in
    let rows := <[idx := set_pressure (pressure r * 1.5) r]> rows in
    Ok rows
  else Ok rows.

Fixpoint inject_all (rows : list row) (anomaly_indices : list nat)
  : result (list row) :=
  match anomaly_indices with
  | [] => Ok rows
  | idx :: rest =>
      let! rows := inject rows idx in
      inject_all rows rest
  end.

(** The frame a generator returns: the loop, then the anomalies. *)
Definition frame (g : generator) (noise : nat -> draws)
    (dates : list datetime) (sample : list nat) : result (list row) :=
  let! rows := usage_rows g noise dates in
  let! anomaly_indices := choice (length rows) sample in
  inject_all rows anomaly_indices.

(** data_processing.generate_demo_historical_data *)
Definition generate_demo_historical_data := frame HistoricalData.

(** The [historical] frame of dashboard.generate_demo_data *)
Definition generate_demo_data_historical := frame DemoData.

(** The four draws of [generate_demo_realtime_data], in the order of the
    calls to [np.random.normal]. *)
Record realtime_draws : Type := mkRealtimeDraws {
  flow_draw : Q;
  pressure_draw : Q;
  hourly_draw : Q;
  daily_draw : Q
}.

(** data_processing.generate_demo_realtime_data *)
Definition generate_demo_realtime_data (now : Q) (d : realtime_draws)
  : gmap string Q :=
  let flow_rate := 8.5 + flow_draw d in
  let pressure := 3.2 + pressure_draw d in
  let flow_rate := max 0.1 flow_rate in
  let pressure := max 0.5 pressure in
  {[ "timestamp"%string := now;
     "flow_rate"%string := round2 flow_rate;
     "pressure"%string := round2 pressure;
     "volume"%string := round2 (flow_rate * 60 / 1000);
     "hourly_usage"%string := round2 (22.8 + hourly_draw d);
     "daily_usage"%string := round2 (245.6 + daily_draw d) ]}.

End Generators.

(** ** utils.check_alerts *)

Module Utils.
Import Py.

Inductive severity : Type :=
| high
| medium.

(** The four messages, by the two numbers each one prints. *)
Inductive message : Type :=
| HighPressure (pressure threshold : Q)
| LowPressure (pressure threshold : Q)
| HighFlowRate (flow_rate threshold : Q)
| DailyUsageExceeded (daily_usage threshold : Q).

(** An alert; the time of day in its text and its [timestamp] are
    readings of the clock and are left out. *)
Record alert : Type := mkAlert {
  alert_message : message;
  alert_severity : severity
}.

(** [not d] for a value that is [None] or a dict. *)
Definition falsy (d : option (gmap string Q)) : bool :=
  match d with
  | None => true
  | Some m => bool_decide (m = ∅)
  end.

(** One [if key in data and limit in thresholds:] block; [exceeds] is
    the comparison of the block. *)
Definition check (data thresholds : gmap string Q) (key limit : string)
    (exceeds : Q -> Q -> bool) (msg : Q -> Q -> message) (sev : severity)
    (alerts : list alert) : list alert :=
  match data !! key, thresholds !! limit with
  | Some value, Some threshold =>
      if exceeds value threshold
      then alerts ++ [mkAlert (msg value threshold) sev]
      else alerts
  | _, _ => alerts
  end.

Definition check_alerts (data thresholds : option (gmap string Q))
  : list alert :=
  if falsy data || falsy thresholds then []
  else
    match data, thresholds with
    | Some data, Some thresholds =>
        let alerts := [] in
        let alerts :=
          check data thresholds "pressure" "pressure_high"
            (fun pressure threshold => Qlt_bool threshold pressure)
            HighPressure high alerts in
        let alerts :=
          check data thresholds "pressure" "pressure_low"
            (fun pressure threshold => Qlt_bool pressure threshold)
            LowPressure high alerts in
        let alerts :=
          check data thresholds "flow_rate" "flow_high"
            (fun flow_rate threshold => Qlt_bool threshold flow_rate)
            HighFlowRate medium alerts in
        let alerts :=
          check data thresholds "daily_usage" "daily_usage_high"
            (fun daily_usage threshold => Qlt_bool threshold daily_usage)
            DailyUsageExceeded medium alerts in
        alerts
    | _, _ => []
    end.

End Utils.

(** ** firebase_manager.FirebaseManager: the readings and what is
       derived from them *)

Module Manager.
Import Py Firebase.

(** A value stored under a path of the database: a reading, or something
    that is not a dict. *)
Inductive value : Type :=
| Reading (r : reading)
| NotADict.

(** The document of a reply: a JSON object, given by its values in
    order, or any other JSON value. *)
Inductive document : Type :=
| Object (values : list value)
| Other.

(** The outcome of [requests.get(url)]: the call raises, or a response
    arrives whose body may fail to parse ([response.json()] raises). *)
Inductive reply : Type :=
| Failure
| Response (status_code : Z) (json : option document).

Definition possible_paths : list string :=
  ["sensor_readings"; "readings"; "data"]%string.

(** [list.sort(key=...)] on any list: stable, keys compared with [<]. *)
Fixpoint insert_key {A} (key : A -> Q) (x : A) (l : list A) : list A :=
  match l with
  | [] => [x]
  | y :: l' =>
      if Qlt_bool (key y) (key x) then y :: insert_key key x l'
      else x :: y :: l'
  end.

Definition sort_key {A} (key : A -> Q) (l : list A) : list A :=
  foldr (insert_key key) [] l.

(** [x.get(...)] raises on a value that is not a dict. *)
Definition as_dict (v : value) : option reading :=
  match v with
  | Reading r => Some r
  | NotADict => None
  end.

(** [reading['total_volume'] = reading['total_ml'] / 1000.0] when the
    reading has a [total_ml]. *)
Definition to_liters (r : reading) : reading :=
  match r !! "total_ml"%string with
  | Some total_ml => <["total_volume"%string := total_ml / 1000.0]> r
  | None => r
  end.

(** The hour and day factors of the demo usage. *)
Definition hour_factors : gmap Z Q :=
  list_to_map
    [ (0%Z, 0.2); (1%Z, 0.1); (2%Z, 0.1); (3%Z, 0.1); (4%Z, 0.2);
      (5%Z, 0.5); (6%Z, 1.2); (7%Z, 1.5); (8%Z, 1.2); (9%Z, 0.8);
      (10%Z, 0.7); (11%Z, 0.8); (12%Z, 1.0); (13%Z, 0.9); (14%Z, 0.7);
      (15%Z, 0.6); (16%Z, 0.7); (17%Z, 1.0); (18%Z, 1.5); (19%Z, 1.2);
      (20%Z, 1.0); (21%Z, 0.8); (22%Z, 0.5); (23%Z, 0.3) ].

Definition day_factors : gmap Z Q :=
  list_to_map
    [ (0%Z, 1.0); (1%Z, 0.9); (2%Z, 1.1); (3%Z, 1.0); (4%Z, 1.2);
      (5%Z, 1.5); (6%Z, 1.3) ].

#[global] Arguments hour_factors : simpl never.
#[global] Arguments day_factors : simpl never.

(** An entry of the connection log; the other fields are constants of
    the event. *)
Inductive event : Type :=
| connect
| disconnect.

Record log : Type := mkLog {
  log_timestamp : Q;
  log_event : event
}.

(** [for i in range(1, len(readings))]: a gap of more than two minutes
    between two readings is a disconnection and a reconnection. *)
Fixpoint gap_events (readings : list reading) : list log :=
  match readings with
  | prev :: (curr :: _) as rest =>
      let prev_time := timestamp_key prev in
      let curr_time := timestamp_key curr in
      (if Qlt_bool 120 (curr_time - prev_time)
       then [mkLog (prev_time + 60) disconnect; mkLog (curr_time - 1) connect]
       else [])
      ++ gap_events rest
  | _ => []
  end.

(** The clock as the methods read it; the readings made during one call
    are taken at one instant. *)
Record clock : Type := mkClock {
  now : Q;             (* datetime.now().timestamp() *)
  hour : Z;            (* datetime.now().hour *)
  weekday : Z;         (* datetime.now().weekday() *)
  start_of_hour : Q;
  start_of_day : Q
}.

(** The draws of [random.uniform], in the order of the calls. *)
Record uniform_draws : Type := mkUniformDraws {
  flow_u : Q;          (* random.uniform(-1.0, 1.0) *)
  pressure_u : Q;      (* random.uniform(-0.3, 0.3) *)
  temperature_u : Q;   (* random.uniform(-0.5, 0.5) *)
  hourly_u : Q;        (* random.uniform(0.8, 1.2) *)
  daily_u : Q          (* random.uniform(0.9, 1.1) *)
}.

(** Draws inside the ranges given to [random.uniform]. *)
Definition in_range (u : uniform_draws) : Prop :=
  -1.0 <= flow_u u <= 1.0 /\
  -0.3 <= pressure_u u <= 0.3 /\
  -0.5 <= temperature_u u <= 0.5 /\
  0.8 <= hourly_u u <= 1.2 /\
  0.9 <= daily_u u <= 1.1.

(** The draws of the demo branch of [get_latest_reading]. *)
Record reading_draws : Type := mkReadingDraws {
  rate_u : Q;          (* random.uniform(0.8, 1.2) *)
  bar_u : Q;           (* random.uniform(-0.3, 0.3) *)
  degree_u : Q;        (* random.uniform(-0.5, 0.5) *)
  volume_u : Q         (* random.uniform(0, 500.0) *)
}.

(** The flow of a demo reading varies by hour, with a morning and an
    evening peak, and is higher at the weekend. *)
Definition hour_factor (hour : Z) : Q :=
  let hour_factor := 0.5 + 0.5 * Qabs (inject_Z (12 - hour)) / 12 in
  if ((6 <=? hour) && (hour <=? 9))%Z then 1.5
  else if ((17 <=? hour) && (hour <=? 20))%Z then 1.8
  else hour_factor.

Definition day_factor (weekday : Z) : Q :=
  if (5 <=? weekday)%Z then 1.3 else 1.0.

(** [get_latest_reading] in demo mode; the [device_id], a string, is
    left out. *)
Definition get_latest_reading_demo (c : clock) (u : reading_draws)
  : reading :=
  let hour_factor := hour_factor (hour c) in
  let day_factor := day_factor (weekday c) in
  let flow_rate := 8.0 * hour_factor * day_factor * rate_u u in
  let pressure := 3.2 + bar_u u in
  {[ "timestamp"%string := now c;
     "flow_rate"%string := flow_rate;
     "pressure"%string := pressure;
     "temperature"%string := 21.5 + degree_u u;
     "total_volume"%string := 1000.0 + volume_u u ]}.

Section Manager.
(** [self.demo_mode], and the reply of the database to the request for a
    path and a time range. *)
Variable demo_mode : bool.
Variable get : string -> Q -> Q -> reply.

(** One iteration of [for path in possible_paths]: the readings after
    it, and whether it ends with [break]. *)
Definition visit (start_timestamp end_timestamp : Q) (path : string)
    (readings : list value) : list value * bool :=
  match get path start_timestamp end_timestamp with
  | Failure => (readings, false)
  | Response status_code json =>
      if (status_code =? 200)%Z then
        match json with
        | None => (readings, false)
        | Some (Object []) | Some Other => (readings, false)
        | Some (Object path_readings) =>
            let readings := readings ++ path_readings in
            (readings, negb (bool_decide (readings = [])))
        end
      else (readings, false)
  end.

Fixpoint for_paths (start_timestamp end_timestamp : Q) (paths : list string)
    (readings : list value) : list value :=
  match paths with
  | [] => readings
  | path :: paths' =>
      let '(readings, stop) :=
        visit start_timestamp end_timestamp path readings in
      if stop then readings
      else for_paths start_timestamp end_timestamp paths' readings
  end.

(** The body of the outer [try] of [get_historical_readings], [None]
    when it raises. *)
Definition get_historical_readings_body (start_timestamp end_timestamp : Q)
  : option (list reading) :=
  let readings :=
    for_paths start_timestamp end_timestamp possible_paths [] in
  if negb (bool_decide (readings = [])) then
    readings ← mapM as_dict readings;
    let readings := sort_by timestamp_key readings in
    Some (to_liters <$> readings)
  else Some [].

(** [get_historical_readings] with [demo_mode] off. *)
Definition get_historical_readings (start_timestamp end_timestamp : Q)
  : list reading :=
  default [] (get_historical_readings_body start_timestamp end_timestamp).

Definition _calculate_usage_for_period :=
  calculate_usage_for_period get_historical_readings.

(** [get_latest_readings] *)
Definition get_latest_readings (c : clock) (u : uniform_draws)
  : option (gmap string Q) :=
  if demo_mode then
    Some {[ "timestamp"%string := now c;
            "flow_rate"%string := 8.5 + flow_u u;
            "pressure"%string := 3.2 + pressure_u u;
            "temperature"%string := 21.5 + temperature_u u ]}
  else None.

Definition get_hourly_usage (c : clock) (u : uniform_draws) : Q :=
  if demo_mode then
    let base_usage := 25.0 in
    base_usage * default 1.0 (hour_factors !! hour c) * hourly_u u
  else
    match _calculate_usage_for_period (start_of_hour c) (now c) with
    | Ok usage => usage
    | Raise _ => 0.0
    end.

Definition get_daily_usage (c : clock) (u : uniform_draws) : Q :=
  if demo_mode then
    let base_usage := 240.0 in
    base_usage * default 1.0 (day_factors !! weekday c) * daily_u u
  else
    match _calculate_usage_for_period (start_of_day c) (now c) with
    | Ok usage => usage
    | Raise _ => 0.0
    end.

(** The [alert_thresholds] of [get_user_settings]. *)
Definition get_user_settings : option (gmap string Q) :=
  if demo_mode then
    Some {[ "pressure_high"%string := 6.0;
            "pressure_low"%string := 1.0;
            "flow_high"%string := 20.0;
            "daily_usage_high"%string := 500.0 ]}
  else None.

(** The body of the [try] of [get_connection_logs] with [demo_mode] off,
    [None] when it raises. *)
Definition get_connection_logs_body (c : clock) (hours : Q)
  : option (list log) :=
  let start_time := now c - hours * 3600 in
  let end_time := now c in
  let readings := get_historical_readings start_time end_time in
  match readings with
  | [] => Some []
  | _ =>
      let readings := sort_by timestamp_key readings in
      first_reading ← head readings;
      (* [first_reading.get("timestamp") - 1] raises on [None] *)
      first_time ← first_reading !! "timestamp"%string;
      let logs := [mkLog (first_time - 1) connect] in
      let logs := logs ++ gap_events readings in
      last_reading ← last readings;
      let last_time := timestamp_key last_reading in
      let logs :=
        if Qlt_bool 120 (now c - last_time)
        then logs ++ [mkLog (last_time + 60) disconnect]
        else logs in
      Some (sort_key log_timestamp logs)
  end.

Definition get_connection_logs (c : clock) (hours : Q) : list log :=
  default [] (get_connection_logs_body c hours).

End Manager.

End Manager.

(** ** The alerts of the dashboard *)

Module Dashboard.
Import Py Utils Manager Generators.

(** The thresholds used without a signed-in user. *)
Definition default_thresholds : gmap string Q :=
  {[ "pressure_high"%string := 6.0;
     "pressure_low"%string := 1.0;
     "flow_high"%string := 20.0;
     "daily_usage_high"%string := 500.0 ]}.

Section Display.
Variable demo_mode : bool.
Variable get : string -> Q -> Q -> reply.

(** data_processing.get_real_time_data; [series_flag] is the test
    ['demo_mode' in pd.Series.__dict__ and pd.Series.__dict__['demo_mode']]. *)
Definition get_real_time_data (series_flag : bool) (d : realtime_draws)
    (c : clock) (u : uniform_draws) : option (gmap string Q) :=
  if series_flag then Some (generate_demo_realtime_data (now c) d)
  else
    match get_latest_readings demo_mode c u with
    | None => None
    | Some latest_data =>
        if bool_decide (latest_data = ∅) then None
        else
          let hourly_usage := get_hourly_usage demo_mode get c u in
          let daily_usage := get_daily_usage demo_mode get c u in
          let latest_data :=
            <["hourly_usage"%string := hourly_usage]> latest_data in
          let latest_data :=
            <["daily_usage"%string := daily_usage]> latest_data in
          Some latest_data
    end.

(** The alerts [display_dashboard] computes when the session is not in
    demo mode; [user_id] tells whether a user is signed in. *)
Definition display_dashboard_alerts (user_id : bool) (series_flag : bool)
    (d : realtime_draws) (c : clock) (u : uniform_draws) : list alert :=
  let real_time_data := get_real_time_data series_flag d c u in
  let thresholds :=
    if user_id then
      match get_user_settings demo_mode with
      | Some alert_thresholds => Some alert_thresholds
      | None => Some ∅
      end
    else Some default_thresholds in
  check_alerts real_time_data thresholds.

End Display.

End Dashboard.

(** ** A connection log read in order

    [chain lo e logs]: the timestamps of [logs] increase strictly from
    above [lo] and its events alternate, starting with [e]. *)

Module LogView.
Import Manager.

Definition other (e : event) : event :=
  match e with
  | connect => disconnect
  | disconnect => connect
  end.

Fixpoint chain (lo : Q) (e : event) (logs : list log) : Prop :=
  match logs with
  | [] => True
  | l :: logs' =>
      lo < log_timestamp l /\ log_event l = e /\
      chain (log_timestamp l) (other e) logs'
  end.

End LogView.

(** ** More examples *)

Module MoreExamples.
Import Py Pd Firebase Manager.

(** Twenty-five readings of 5.0 with one missing value at position 12. *)
Definition gap_column : list cell :=
  replicate 12 (Num 5) ++ [NaN] ++ replicate 12 (Num 5).

Definition gap_frame : DataFrame :=
  mkDataFrame (Z.of_nat <$> seq 0 25) {[ "pressure"%string := gap_column ]}.

(** Three readings of a device that counts millilitres, out of order. *)
Definition ml_readings : list reading :=
  [ {[ "timestamp"%string := 20; "total_ml"%string := 9000 ]};
    {[ "timestamp"%string := 10; "total_ml"%string := 3000 ]};
    {[ "timestamp"%string := 400; "total_ml"%string := 12500 ]} ].

(** A database that holds them under [readings]; [sensor_readings] is
    not found and [data] holds something else. *)
Definition device_db : string -> Q -> Q -> reply :=
  fun path _ _ =>
    if String.eqb path "sensor_readings" then Response 404 None
    else if String.eqb path "readings"
    then Response 200 (Some (Object (Reading <$> ml_readings)))
    else Response 200 (Some (Object [NotADict])).

(** A database with a stray number among the readings. *)
Definition stray_db : string -> Q -> Q -> reply :=
  fun path _ _ =>
    if String.eqb path "sensor_readings"
    then Response 200 (Some (Object ((Reading <$> ml_readings) ++ [NotADict])))
    else Failure.

(** A database that cannot be reached. *)
Definition offline_db : string -> Q -> Q -> reply :=
  fun _ _ _ => Failure.

(** A database with a reading that has no timestamp. *)
Definition untimed_db : string -> Q -> Q -> reply :=
  fun path _ _ =>
    Response 200
      (Some (Object (Reading <$>
                       ml_readings ++ [ {[ "total_ml"%string := 100 ]} ]))).

(** A Saturday evening, and draws at the top of their ranges. *)
Definition saturday_evening : clock := mkClock 1000000 18 5 997200 936000.

Definition top_draws : uniform_draws := mkUniformDraws 1.0 0.3 0.5 1.2 1.1.

Definition top_reading_draws : reading_draws := mkReadingDraws 1.2 0.3 0.5 500.

End MoreExamples.


(** * Properties *)

(** ** Exact floats

    [Quot d v] stands for the real number [d / sqrt v]; the comparison [gt]
    decides [>] on it without computing the square root. *)

Module FloatFacts.
Import Py Pd.

Lemma Qlt_bool_iff (a b : Q) : Qlt_bool a b = true <-> a < b.
Proof.
  unfold Qlt_bool. rewrite negb_true_iff. split.
  - intros H. apply Qnot_le_lt. intros Hle.
    apply Qle_bool_iff in Hle. congruence.
  - intros H. apply not_true_iff_false. intros Hle.
    apply Qle_bool_iff in Hle. lra.
Qed.

Lemma Q2R_Qabs (d : Q) : Q2R (Qabs d) = Rabs (Q2R d).
Proof.
  assert (H0 : Q2R 0 = 0%R) by (unfold Q2R; simpl; Lra.lra).
  destruct (Qlt_le_dec d 0) as [H|H].
  - rewrite (Qeq_eqR _ _ (Qabs_neg d (Qlt_le_weak _ _ H))), Q2R_opp.
    apply Qlt_Rlt in H. rewrite H0 in H. now rewrite Rabs_left.
  - rewrite (Qeq_eqR _ _ (Qabs_pos d H)).
    apply Qle_Rle in H. rewrite H0 in H. rewrite Rabs_right; [reflexivity|].
    now apply Rle_ge.
Qed.

Lemma gt_Quot_real (d v t : Q) :
  0 < v ->
  gt (Quot d v) t = true <-> (Q2R d / sqrt (Q2R v) > Q2R t)%R.
Proof.
  intros Hv.
  assert (H0 : Q2R 0 = 0%R) by (unfold Q2R; simpl; Lra.lra).
  assert (0 < Q2R v)%R as HvR by (rewrite <- H0; now apply Qlt_Rlt).
  pose proof (sqrt_lt_R0 _ HvR) as Hs.
  pose proof (sqrt_sqrt (Q2R v) (Rlt_le _ _ HvR)) as Hss.
  set (s := sqrt (Q2R v)) in *. clearbody s.
  set (x := Q2R d). set (y := (Q2R t * s)%R).
  assert (Hdiv : (x / s > Q2R t <-> x > y)%R).
  { unfold y. split; intros H.
    - apply (Rmult_lt_compat_r s) in H; [|exact Hs].
      unfold Rdiv in H. rewrite Rmult_assoc, Rinv_l, Rmult_1_r in H by Lra.lra.
      Lra.lra.
    - apply (Rmult_lt_reg_r s); [exact Hs|].
      unfold Rdiv. rewrite Rmult_assoc, Rinv_l, Rmult_1_r by Lra.lra.
      Lra.lra. }
  rewrite Hdiv. cbn [gt].
  assert (Hsq : (Q2R (t * t * v) = y * y)%R)
    by (unfold y; rewrite !Q2R_mult, <- Hss; ring).
  assert (Hdd : (Q2R (d * d) = x * x)%R) by (unfold x; now rewrite Q2R_mult).
  destruct (Qlt_bool t 0) eqn:Et.
  - apply Qlt_bool_iff in Et. apply Qlt_Rlt in Et. rewrite H0 in Et.
    assert (y < 0)%R as Hy by (unfold y; clear - Et Hs; Lra.nra).
    rewrite orb_true_iff, Qle_bool_iff, Qlt_bool_iff. split.
    + intros [Hd|Hd].
      * apply Qle_Rle in Hd. rewrite H0 in Hd. fold x in Hd. Lra.lra.
      * apply Qlt_Rlt in Hd. rewrite Hsq, Hdd in Hd.
        clear - Hd Hy. Lra.nra.
    + intros H.
      destruct (Qlt_le_dec d 0) as [Hneg|Hpos]; [right|left; exact Hpos].
      apply Rlt_Qlt. rewrite Hsq, Hdd.
      apply Qlt_Rlt in Hneg. rewrite H0 in Hneg. fold x in Hneg.
      clear - H Hneg Hy. Lra.nra.
  - apply not_true_iff_false in Et. rewrite Qlt_bool_iff in Et.
    apply Qnot_lt_le in Et. apply Qle_Rle in Et. rewrite H0 in Et.
    assert (0 <= y)%R as Hy
      by (unfold y; clear - Et Hs; apply Rmult_le_pos; Lra.lra).
    rewrite andb_true_iff, !Qlt_bool_iff. split.
    + intros [Hd Hlt]. apply Qlt_Rlt in Hd, Hlt. rewrite H0 in Hd.
      rewrite Hsq, Hdd in Hlt. fold x in Hd. clear - Hd Hlt Hy. Lra.nra.
    + intros H. assert (0 < x)%R as Hd by Lra.lra. split.
      * apply Rlt_Qlt. now rewrite H0.
      * apply Rlt_Qlt. rewrite Hsq, Hdd. clear - H Hd Hy. Lra.nra.
Qed.

(** [abs(z) > t] on the exact z-score [z = d / sqrt v]. *)
Lemma abs_zscore_exceeds_real (d v t : Q) :
  0 < v ->
  gt (fabs (Quot d v)) t = true <->
  (Rabs (Q2R d / sqrt (Q2R v)) > Q2R t)%R.
Proof.
  intros Hv. cbn [fabs]. rewrite (gt_Quot_real _ _ _ Hv), Q2R_Qabs.
  assert (H0 : Q2R 0 = 0%R) by (unfold Q2R; simpl; Lra.lra).
  assert (0 < Q2R v)%R as HvR by (rewrite <- H0; now apply Qlt_Rlt).
  pose proof (sqrt_lt_R0 _ HvR) as Hs.
  unfold Rdiv. rewrite Rabs_mult, (Rabs_right (/ sqrt (Q2R v))); [reflexivity|].
  apply Rle_ge, Rlt_le, Rinv_0_lt_compat, Hs.
Qed.

End FloatFacts.

(** ** The rolling z-score detector *)

Module DetectorFacts.
Import Py Pd DataProcessing DetectorView.

Lemma prep_values_total xs :
  Forall (fun c => forall s, c <> Obj s) xs ->
  prep_values xs = Ok (float_of <$> xs).
Proof.
  induction 1 as [|c xs Hc _ IH]; simpl; [reflexivity|].
  rewrite IH. destruct c; simpl; try reflexivity. now destruct (Hc s).
Qed.

Lemma sub_prepared xs ms :
  Forall (fun c => forall s, c <> Obj s) xs ->
  sub xs ms = Ok (zip_with sub_opt (float_of <$> xs) ms).
Proof.
  intros H; revert ms; induction H as [|c xs Hc _ IH]; intros ms; simpl.
  - now destruct ms.
  - destruct ms as [|m ms]; [reflexivity|].
    rewrite IH. destruct c as [q| |s], m; simpl; try reflexivity;
      now destruct (Hc s).
Qed.

Lemma has_obj_false xs :
  has_obj xs = false -> Forall (fun c => forall s, c <> Obj s) xs.
Proof.
  induction xs as [|c xs IH]; simpl; [constructor|].
  intros [Hc Hxs]%orb_false_elim. constructor; [|auto].
  intros s ->. discriminate.
Qed.

Lemma has_obj_true xs :
  has_obj xs = true -> exists e, prep_values xs = Raise e.
Proof.
  induction xs as [|c xs IH]; simpl; [discriminate|].
  destruct c as [q| |s]; simpl; eauto;
    intros [e ->]%IH; simpl; eauto.
Qed.

(** Position by position, the main path computes [flag_at]. *)
Lemma zscore_flags (vs : list (option Q)) (w : nat) (t : Q) :
  (fun z => EBool (gt (fabs z) t)) <$>
    div (zip_with sub_opt vs
           ((fun i => roll_mean w (window_at vs w i)) <$> seq 0 (length vs)))
        ((fun i => roll_var w (window_at vs w i)) <$> seq 0 (length vs))
  = (fun i => EBool (flag_at vs w t i)) <$> seq 0 (length vs).
Proof.
  apply list_eq; intros i. unfold div.
  rewrite !list_lookup_fmap, !lookup_zip_with, !list_lookup_fmap.
  destruct (decide (i < length vs)%nat) as [Hi|Hi].
  - rewrite lookup_seq_lt by assumption.
    destruct (lookup_lt_is_Some_2 vs i Hi) as [v Hv].
    unfold flag_at. rewrite Hv. simpl. rewrite Hv. reflexivity.
  - rewrite lookup_seq_ge by lia.
    rewrite (lookup_ge_None_2 vs i) by lia. reflexivity.
Qed.

(** Closed form of [detect_anomalies]: it always returns a series. *)
Lemma detect_anomalies_eq df column window t :
  detect_anomalies df column window t =
  Ok (if empty df || negb (has_column df column)
      then Series_nan (index df)
      else match columns df !! column with
           | None => Series_false (index df)
           | Some xs =>
               if (window <? 0)%Z || has_obj xs
               then Series_false (index df)
               else mkSeries (index df)
                      ((fun i => EBool (flag_at (float_of <$> xs)
                                          (Z.to_nat window) t i))
                         <$> seq 0 (length xs))
           end).
Proof.
  unfold detect_anomalies, detect_anomalies_body.
  destruct (empty df || negb (has_column df column)); [reflexivity|].
  unfold getitem. destruct (columns df !! column) as [xs|]; [|reflexivity].
  simpl. unfold rolling.
  destruct (window <? 0)%Z; [reflexivity|]. simpl.
  destruct (has_obj xs) eqn:Hobj.
  - destruct (has_obj_true xs Hobj) as [e He]. now rewrite He.
  - pose proof (has_obj_false xs Hobj) as Hno.
    rewrite (prep_values_total xs Hno). simpl.
    rewrite (sub_prepared xs _ Hno). simpl.
    rewrite zscore_flags. now rewrite length_fmap.
Qed.

(** *** Windows *)

Lemma window_at_fmap {A B} (f : A -> B) (xs : list A) (w i : nat) :
  window_at (f <$> xs) w i = f <$> window_at xs w i.
Proof.
  unfold window_at. rewrite length_fmap.
  destruct (window_bounds (length xs) w i) as [start stop].
  now rewrite fmap_take, fmap_drop.
Qed.

Lemma window_at_length {A} (xs : list A) (w i : nat) :
  (length (window_at xs w i) <= Nat.min w (length xs))%nat.
Proof.
  unfold window_at, window_bounds, clip.
  rewrite length_take, length_drop. lia.
Qed.

(** For a window of positive size the centre lies inside its window. *)
Lemma center_in_window {A} (xs : list A) (w i : nat) (x : A) :
  (1 <= w)%nat -> xs !! i = Some x -> x ∈ window_at xs w i.
Proof.
  intros Hw Hx. pose proof (lookup_lt_Some _ _ _ Hx) as Hi.
  unfold window_at, window_bounds, clip.
  set (offset := ((Z.of_nat w - 1) / 2)%Z).
  assert (0 <= offset <= Z.of_nat w - 1)%Z as Hoff.
  { unfold offset. split.
    - apply Z.div_pos; lia.
    - apply Z.div_le_upper_bound; lia. }
  set (start := Z.to_nat
         (Z.min (Z.max (Z.of_nat i + 1 + offset - Z.of_nat w) 0)
                (Z.of_nat (length xs)))).
  set (stop := Z.to_nat
         (Z.min (Z.max (Z.of_nat i + 1 + offset) 0) (Z.of_nat (length xs)))).
  assert (start <= i < stop)%nat as [Hlo Hhi] by (unfold start, stop; lia).
  apply list_elem_of_lookup. exists (i - start)%nat.
  rewrite lookup_take_lt by lia.
  rewrite lookup_drop. rewrite <- Hx. f_equal. lia.
Qed.

Lemma observations_length (ws : list (option Q)) :
  (length (observations ws) <= length ws)%nat.
Proof.
  unfold observations. induction ws as [|[q|] ws IH]; simpl.
  - constructor.
  - exact (le_n_S _ _ IH).
  - exact (le_S _ _ IH).
Qed.

Lemma observations_Num (ws : list cell) (c : Q) :
  Forall (fun x => exists q, x = Num q /\ q == c) ws ->
  Forall (fun q => q == c) (observations (float_of <$> ws)).
Proof.
  induction 1 as [|x ws (q & -> & Hq) _ IH]; simpl; constructor; auto.
Qed.

(** *** Sums over constant lists *)

Lemma Qnat_S (n : nat) : Qnat (S n) == Qnat n + 1.
Proof.
  unfold Qnat. rewrite Nat2Z.inj_succ, <- Z.add_1_r, inject_Z_plus.
  reflexivity.
Qed.

Lemma Qnat_pos (n : nat) : (0 < n)%nat -> 0 < Qnat n.
Proof.
  intros H. unfold Qnat. change 0 with (inject_Z 0).
  rewrite <- Zlt_Qlt. lia.
Qed.

Lemma Qsum_const (l : list Q) (c : Q) :
  Forall (fun q => q == c) l -> Qsum l == Qnat (length l) * c.
Proof.
  induction 1 as [|q l Hq _ IH].
  - simpl. unfold Qnat. simpl. ring.
  - change (Qsum (q :: l)) with (q + Qsum l).
    change (length (q :: l)) with (S (length l)).
    rewrite Qnat_S, IH, Hq. ring.
Qed.

Lemma ssqdm_const (l : list Q) (c m : Q) :
  Forall (fun q => q == c) l -> m == c -> ssqdm m l == 0.
Proof.
  intros Hl Hm. unfold ssqdm. induction Hl as [|q l Hq _ IH].
  - reflexivity.
  - rewrite fmap_cons.
    change (Qsum (?a :: ?b)) with (a + Qsum b).
    rewrite IH, Hq, Hm. ring.
Qed.

Lemma mean_const (l : list Q) (c : Q) :
  Forall (fun q => q == c) l -> (0 < length l)%nat ->
  Qsum l / Qnat (length l) == c.
Proof.
  intros Hl Hn. rewrite (Qsum_const l c Hl).
  pose proof (Qnat_pos _ Hn). field. lra.
Qed.

(** *** Flags *)

(** Too few observations in the window: the rolling mean is missing and
    the comparison with the threshold is false. *)
Lemma flag_at_insufficient (vs : list (option Q)) (w : nat) (t : Q) (i : nat) :
  (length (observations (window_at vs w i)) < w)%nat ->
  flag_at vs w t i = false.
Proof.
  intros H. unfold flag_at, roll_mean.
  replace (w <=? length (observations (window_at vs w i)))%nat with false
    by (symmetry; apply Nat.leb_gt; exact H).
  simpl. now destruct (default None (vs !! i)).
Qed.

(** A window whose values are all the same number: the deviation of the
    centre and the variance are both zero, [0/0] is NaN, and the
    comparison is false whatever the threshold. *)
Lemma flag_at_constant (xs : list cell) (w : nat) (t c : Q) (i : nat) :
  (i < length xs)%nat ->
  Forall (fun x => exists q, x = Num q /\ q == c) (window_at xs w i) ->
  flag_at (float_of <$> xs) w t i = false.
Proof.
  intros Hi Hall. unfold flag_at.
  rewrite window_at_fmap.
  pose proof (observations_Num _ c Hall) as Hobs.
  set (obs := observations (float_of <$> window_at xs w i)) in *.
  unfold roll_mean, roll_var. fold obs.
  destruct (Nat.max w 1 <=? length obs)%nat eqn:Hfull; simpl;
    [destruct (1 <? length obs)%nat eqn:Hddof; simpl|].
  - (* a full window of at least two observations *)
    apply Nat.leb_le in Hfull. apply Nat.ltb_lt in Hddof.
    replace (w <=? length obs)%nat with true
      by (symmetry; apply Nat.leb_le; lia).
    replace (0 <? length obs)%nat with true
      by (symmetry; apply Nat.ltb_lt; lia).
    simpl.
    assert (1 <= w)%nat as Hw.
    { pose proof (observations_length (float_of <$> window_at xs w i)).
      pose proof (window_at_length xs w i).
      rewrite length_fmap in *. fold obs in H. lia. }
    destruct (lookup_lt_is_Some_2 xs i Hi) as [x Hx].
    pose proof (center_in_window xs w i x Hw Hx) as Hin.
    rewrite Forall_forall in Hall. destruct (Hall x Hin) as (q & -> & Hq).
    rewrite list_lookup_fmap, Hx. simpl.
    assert (Hmean : Qsum obs / Qnat (length obs) == c)
      by (apply mean_const; [assumption | lia]).
    assert (Hvar : ssqdm (Qsum obs / Qnat (length obs)) obs
                     / Qnat (length obs - 1) == 0).
    { rewrite (ssqdm_const obs c _ Hobs Hmean).
      unfold Qdiv. ring. }
    unfold div_std.
    replace (Qlt_bool 0 _) with false.
    2:{ symmetry. unfold Qlt_bool. apply negb_false_iff.
        apply Qle_bool_iff. rewrite Hvar. apply Qle_refl. }
    replace (Qeq_bool _ 0) with true; [reflexivity|].
    symmetry. apply Qeq_bool_iff. rewrite Hmean, Hq. ring.
  - now destruct (sub_opt _ _).
  - now destruct (sub_opt _ _).
Qed.

Lemma wf_nonempty (df : DataFrame) (column : string) (xs : list cell) :
  wf df -> columns df !! column = Some xs -> xs <> [] ->
  empty df || negb (has_column df column) = false.
Proof.
  intros Hwf Hcol Hxs. unfold empty, has_column.
  assert (length (index df) <> 0%nat) as H1.
  { rewrite <- (Hwf column xs Hcol). destruct xs; [congruence|]. simpl. lia. }
  assert (dom (columns df) <> (∅ : gset string)) as H2.
  { intros Hdom. assert (column ∈ dom (columns df)) as Hin
      by (apply elem_of_dom; rewrite Hcol; eauto).
    rewrite Hdom in Hin. set_solver. }
  assert (is_Some (columns df !! column)) as H3 by (rewrite Hcol; eauto).
  rewrite (bool_decide_eq_false_2 _ H1), (bool_decide_eq_false_2 _ H2),
    (bool_decide_eq_true_2 _ H3).
  reflexivity.
Qed.

(** A frame with a single column as long as its index is well formed. *)
Lemma wf_singleton (idx : list Z) (column : string) (xs : list cell) :
  length xs = length idx -> wf (mkDataFrame idx {[ column := xs ]}).
Proof.
  intros Hlen c ys. cbn [columns index].
  intros [_ <-]%lookup_singleton_Some. exact Hlen.
Qed.

End DetectorFacts.


(** ** The usage loop *)

Module UsageFacts.
Import Py Usage.

(** *** Comparisons and rounding *)

Lemma Qlt_bool_spec (a b : Q) : reflect (a < b) (Qlt_bool a b).
Proof.
  unfold Qlt_bool. destruct (Qle_bool b a) eqn:E; constructor.
  - apply Qle_bool_iff in E. lra.
  - apply Qnot_le_lt. intros H. apply Qle_bool_iff in H. congruence.
Qed.

Lemma max_ge_l (a b : Q) : a <= max a b.
Proof. unfold max. destruct (Qlt_bool_spec a b); lra. Qed.

Lemma max_r (a b : Q) : a <= b -> max a b == b.
Proof. unfold max. destruct (Qlt_bool_spec a b); lra. Qed.

Lemma round_half_even_bounds (x : Q) :
  (Qfloor x <= round_half_even x <= Qfloor x + 1)%Z.
Proof.
  unfold round_half_even. cbv zeta.
  repeat match goal with
         | |- context [if ?b then _ else _] => destruct b
         end; lia.
Qed.

Lemma round_half_even_mono (x y : Q) :
  x <= y -> (round_half_even x <= round_half_even y)%Z.
Proof.
  intros Hxy. pose proof (Qfloor_resp_le x y Hxy) as Hfl.
  destruct (Z.eq_dec (Qfloor x) (Qfloor y)) as [E|E].
  - unfold round_half_even. cbv zeta. rewrite <- E.
    destruct (Qlt_bool_spec (x - inject_Z (Qfloor x)) (1 # 2)),
             (Qlt_bool_spec (1 # 2) (x - inject_Z (Qfloor x))),
             (Qlt_bool_spec (y - inject_Z (Qfloor x)) (1 # 2)),
             (Qlt_bool_spec (1 # 2) (y - inject_Z (Qfloor x)));
      try lra; destruct (Z.even (Qfloor x)); lia.
  - pose proof (round_half_even_bounds x).
    pose proof (round_half_even_bounds y). lia.
Qed.

Lemma round2_mono (x y : Q) : x <= y -> round2 x <= round2 y.
Proof.
  intros Hxy. unfold round2.
  assert (x * 100 <= y * 100) as H by lra.
  apply round_half_even_mono in H. rewrite Zle_Qle in H.
  unfold Qdiv. apply Qmult_le_compat_r; [exact H|]. unfold Qle; simpl; lia.
Qed.

Lemma round2_nonneg (x : Q) : 0 <= x -> 0 <= round2 x.
Proof.
  intros Hx. apply Qle_trans with (round2 0).
  - vm_compute. discriminate.
  - now apply round2_mono.
Qed.

Lemma stored_mono (g : generator) (x y : Q) :
  x <= y -> stored g x <= stored g y.
Proof. destruct g; simpl; [apply round2_mono | trivial]. Qed.

Lemma stored_nonneg (g : generator) (x : Q) : 0 <= x -> 0 <= stored g x.
Proof. destruct g; simpl; [apply round2_nonneg | trivial]. Qed.

(** *** One iteration *)

Lemma daily_pattern_nonneg (h : Z) : 0 <= default 0.5 (daily_pattern !! h).
Proof.
  destruct (daily_pattern !! h) as [q|] eqn:E; simpl.
  - unfold daily_pattern in E.
    apply (elem_of_list_to_map_2 (M:=gmap Z)) in E.
    repeat (apply elem_of_cons in E as [E|E];
            [injection E as -> ->; lra|]).
    now apply elem_of_nil in E.
  - unfold Qle; simpl; lia.
Qed.

Ltac unfold_step :=
  unfold step, hour_changed, day_changed;
  cbn [day_reset hour_reset sums_after emitted daily_sum hourly_sum
       last_day last_hour flow_rate pressure volume hourly_usage
       daily_usage].

(** The stored interval volume is not negative unless the flow draw is
    below -1. *)
Lemma step_volume_nonneg g date d s :
  -1 <= flow_noise d -> 0 <= volume (emitted (step g date d s)).
Proof.
  intros Hd. unfold_step. apply stored_nonneg.
  pose proof (daily_pattern_nonneg (hour date)) as Hp.
  set (p := default 0.5 (daily_pattern !! hour date)) in *.
  assert (0 <= p * 8.0 * (1 + flow_noise d)) as H.
  { apply Qmult_le_0_compat; [|lra].
    apply Qmult_le_0_compat; [exact Hp|]. unfold Qle; simpl; lia. }
  unfold Qdiv. apply Qmult_le_0_compat; [|unfold Qle; simpl; lia].
  apply Qmult_le_0_compat; [exact H|]. unfold Qle; simpl; lia.
Qed.

Lemma step_day_reset g date d s :
  day_reset (step g date d s) = negb (day date =? last_day s)%Z.
Proof. reflexivity. Qed.

Lemma step_hour_reset g date d s :
  hour_reset (step g date d s) = negb (hour date =? last_hour s)%Z.
Proof.
  unfold_step. now destruct (negb (day date =? last_day s)%Z).
Qed.

Lemma step_last_day g date d s :
  last_day (sums_after (step g date d s)) = day date.
Proof.
  unfold_step.
  destruct (day date =? last_day s)%Z eqn:Ed; cbn [negb last_day last_hour];
    destruct (negb (hour date =? _)%Z); cbn [last_day]; try reflexivity;
    symmetry; now apply Z.eqb_eq.
Qed.

Lemma step_last_hour g date d s :
  last_hour (sums_after (step g date d s)) = hour date.
Proof.
  unfold_step.
  destruct (day date =? last_day s)%Z eqn:Ed; cbn [negb last_day last_hour];
    destruct (hour date =? _)%Z eqn:Eh; cbn [negb last_hour];
    try reflexivity; symmetry; now apply Z.eqb_eq.
Qed.

Lemma step_hourly_sum g date d s :
  hourly_sum (sums_after (step g date d s)) =
    (if hour_reset (step g date d s) then 0 else hourly_sum s)
    + volume (emitted (step g date d s)).
Proof.
  unfold_step.
  destruct (day date =? last_day s)%Z; cbn [negb last_hour];
    destruct (hour date =? _)%Z; reflexivity.
Qed.

Lemma step_daily_sum g date d s :
  daily_sum (sums_after (step g date d s)) =
    (if day_reset (step g date d s) then 0 else daily_sum s)
    + volume (emitted (step g date d s)).
Proof.
  unfold_step.
  destruct (day date =? last_day s)%Z; cbn [negb last_hour];
    destruct (hour date =? _)%Z; reflexivity.
Qed.

Lemma step_hourly_usage g date d s :
  hourly_usage (emitted (step g date d s)) =
    stored g (hourly_sum (sums_after (step g date d s))).
Proof. reflexivity. Qed.

Lemma step_daily_usage g date d s :
  daily_usage (emitted (step g date d s)) =
    stored g (daily_sum (sums_after (step g date d s))).
Proof. reflexivity. Qed.

Lemma step_hourly_usage_mono g date d s :
  -1 <= flow_noise d ->
  hour_reset (step g date d s) = false ->
  stored g (hourly_sum s) <= hourly_usage (emitted (step g date d s)).
Proof.
  intros Hd Hr. rewrite step_hourly_usage, step_hourly_sum, Hr.
  apply stored_mono. pose proof (step_volume_nonneg g date d s Hd). lra.
Qed.


(** *** Hourly dates

    On the dates the generators build, the comparison of hour and
    day-of-month numbers detects every crossing of an hour or day window. *)

Lemma days_in_month_ge (y m : Z) : (28 <= days_in_month y m <= 31)%Z.
Proof.
  unfold days_in_month.
  destruct (m =? 2)%Z; [destruct (is_leap y); lia|].
  destruct ((m =? 4) || (m =? 6) || (m =? 9) || (m =? 11))%Z; lia.
Qed.

Lemma next_hour_valid (d : datetime) : valid d -> valid (next_hour d).
Proof.
  unfold valid, next_hour, next_day. intros (Hm & Hd & Hh).
  destruct (hour d <? 23)%Z eqn:Eh; cbn [year month day hour].
  - apply Z.ltb_lt in Eh. lia.
  - destruct (day d <? _)%Z eqn:Ed; cbn [year month day hour].
    + apply Z.ltb_lt in Ed. lia.
    + destruct (month d <? 12)%Z eqn:Em; cbn [year month day hour].
      * apply Z.ltb_lt in Em.
        pose proof (days_in_month_ge (year d) (month d + 1)). lia.
      * pose proof (days_in_month_ge (year d + 1) 1). lia.
Qed.

Lemma next_hour_hour (d : datetime) :
  valid d -> hour (next_hour d) <> hour d /\ ~ same_hour d (next_hour d).
Proof.
  unfold valid, next_hour, same_hour. intros (Hm & Hd & Hh).
  destruct (hour d <? 23)%Z eqn:Eh; cbn [hour].
  - split; [lia|]. intros [_ H]. lia.
  - apply Z.ltb_ge in Eh. split; [lia|]. intros [_ H]. lia.
Qed.

Lemma next_hour_day (d : datetime) :
  valid d -> (day (next_hour d) = day d <-> same_day d (next_hour d)).
Proof.
  unfold valid, next_hour, next_day, same_day. intros (Hm & Hd & Hh).
  pose proof (days_in_month_ge (year d) (month d)) as Hdim.
  destruct (hour d <? 23)%Z eqn:Eh; cbn [year month day].
  - tauto.
  - destruct (day d <? _)%Z eqn:Ed; cbn [year month day].
    + split; [lia|]. intros (_ & _ & H). lia.
    + apply Z.ltb_ge in Ed.
      destruct (month d <? 12)%Z; cbn [year month day];
        (split; [lia|]; intros (_ & _ & H); lia).
Qed.

Lemma date_range_lookup (start : datetime) (n k : nat) (d : datetime) :
  valid start ->
  date_range start n !! k = Some d ->
  valid d /\
  forall d', date_range start n !! S k = Some d' -> d' = next_hour d.
Proof.
  revert start k; induction n as [|n IH]; intros start k Hv; cbn [date_range].
  - now rewrite lookup_nil.
  - destruct k as [|k]; simpl.
    + intros [= <-]. split; [exact Hv|].
      destruct n; cbn [date_range]; simpl; [discriminate|]. now intros ? [= <-].
    + apply IH. now apply next_hour_valid.
Qed.

(** *** The loop *)

#[local] Opaque step.

Lemma loop_lookup g noise dates i s k it :
  loop g noise dates i s !! k = Some it ->
  exists d s', dates !! k = Some d /\ it = step g d (noise (i + k)%nat) s'.
Proof.
  revert i s k; induction dates as [|d dates IH]; intros i s k; cbn [loop].
  - now rewrite lookup_nil.
  - destruct k as [|k]; simpl.
    + intros [= <-]. exists d, s. now rewrite Nat.add_0_r.
    + intros H. destruct (IH _ _ _ H) as (d' & s' & Hd & ->).
      exists d', s'. split; [exact Hd|]. f_equal. f_equal. lia.
Qed.

Lemma loop_lookup_S g noise dates i s k it d' :
  loop g noise dates i s !! k = Some it ->
  dates !! S k = Some d' ->
  loop g noise dates i s !! S k =
    Some (step g d' (noise (i + S k)%nat) (sums_after it)).
Proof.
  revert i s k; induction dates as [|d dates IH]; intros i s k; cbn [loop].
  - now rewrite lookup_nil.
  - destruct k as [|k]; simpl.
    + intros [= <-] Hd'. destruct dates as [|d1 dates]; [discriminate|].
      cbn [loop]. simpl in *. injection Hd' as ->. now rewrite Nat.add_1_r.
    + intros H Hd'. rewrite (IH _ _ _ H Hd'). do 3 f_equal. lia.
Qed.

(** Two consecutive iterations: the second one starts from the sums left
    by the first, whose [last_day] and [last_hour] are those of the first
    date. *)
Lemma usage_trace_consecutive g noise dates trace k d d' it it' :
  usage_trace g noise dates = Ok trace ->
  dates !! k = Some d -> dates !! S k = Some d' ->
  trace !! k = Some it -> trace !! S k = Some it' ->
  it' = step g d' (noise (S k)) (sums_after it) /\
  last_day (sums_after it) = day d /\
  last_hour (sums_after it) = hour d.
Proof.
  unfold usage_trace. destruct dates as [|d0 dates0] eqn:E; [discriminate|].
  rewrite <- E. intros [= <-] Hd Hd' Hit Hit'.
  rewrite (loop_lookup_S _ _ _ _ _ _ _ _ Hit Hd') in Hit'.
  injection Hit' as <-. split; [reflexivity|].
  destruct (loop_lookup _ _ _ _ _ _ _ Hit) as (d1 & s1 & Hd1 & ->).
  rewrite Hd in Hd1. injection Hd1 as <-.
  now rewrite step_last_day, step_last_hour.
Qed.

(** What an iteration stores is the stored value of its sums. *)
Lemma usage_trace_emitted g noise dates trace k it :
  usage_trace g noise dates = Ok trace ->
  trace !! k = Some it ->
  hourly_usage (emitted it) = stored g (hourly_sum (sums_after it)) /\
  daily_usage (emitted it) = stored g (daily_sum (sums_after it)).
Proof.
  unfold usage_trace. destruct dates as [|d0 dates0] eqn:E; [discriminate|].
  rewrite <- E. intros [= <-] Hit.
  destruct (loop_lookup _ _ _ _ _ _ _ Hit) as (d1 & s1 & _ & ->).
  now rewrite step_hourly_usage, step_daily_usage.
Qed.

(** The rows a generator returns are those its iterations appended. *)
Lemma usage_rows_of_trace g noise dates trace :
  usage_trace g noise dates = Ok trace ->
  usage_rows g noise dates = Ok (emitted <$> trace) /\
  (g = HistoricalData ->
   generate_demo_historical_data noise dates = Ok (emitted <$> trace)) /\
  (g = DemoData -> generate_demo_data noise dates = Ok (emitted <$> trace)).
Proof.
  intros H. unfold generate_demo_historical_data, generate_demo_data.
  repeat split; intros; subst; unfold usage_rows; now rewrite H.
Qed.

(** The first iteration tests the first date against itself. *)
Lemma usage_trace_first g noise dates trace it :
  usage_trace g noise dates = Ok trace ->
  trace !! 0%nat = Some it ->
  day_reset it = false /\ hour_reset it = false.
Proof.
  unfold usage_trace. destruct dates as [|d0 dates0]; [discriminate|].
  intros [= <-]. cbn [loop]. simpl. intros [= <-].
  rewrite step_day_reset, step_hour_reset. cbn [last_day last_hour].
  now rewrite !Z.eqb_refl.
Qed.

(** On hourly dates every reading resets the hourly sum, as it starts a
    new hour, and the daily sum is reset exactly at the readings that start
    a new calendar day. *)
Lemma hourly_range_resets_at_crossings
    g noise start n trace k d d' it it' :
  valid start ->
  usage_trace g noise (date_range start n) = Ok trace ->
  date_range start n !! k = Some d -> date_range start n !! S k = Some d' ->
  trace !! k = Some it -> trace !! S k = Some it' ->
  ~ same_hour d d' /\ hour_reset it' = true /\
  (day_reset it' = true <-> ~ same_day d d').
Proof.
  intros Hv Htrace Hd Hd' Hit Hit'.
  destruct (usage_trace_consecutive _ _ _ _ _ _ _ _ _ Htrace Hd Hd' Hit Hit')
    as (-> & Hday & Hhour).
  destruct (date_range_lookup _ _ _ _ Hv Hd) as [Hvd Hnext].
  rewrite (Hnext _ Hd') in *.
  destruct (next_hour_hour d Hvd) as [Hh Hnh].
  pose proof (next_hour_day d Hvd) as Hdd.
  rewrite step_hour_reset, step_day_reset, Hday, Hhour.
  split; [exact Hnh|]. split.
  - apply negb_true_iff, Z.eqb_neq, Hh.
  - rewrite negb_true_iff, Z.eqb_neq. tauto.
Qed.

End UsageFacts.


(** ** Usage over a period *)

Module FirebaseFacts.
Import Py Firebase UsageFacts.

Lemma sort_by_sorted (key : reading -> Q) (l : list reading) :
  Sorted (fun x y => key x <= key y) l -> sort_by key l = l.
Proof.
  induction 1 as [|x l Hl IH Hhd]; [reflexivity|].
  unfold sort_by in *. cbn [foldr]. rewrite IH.
  destruct Hhd as [|y l' Hxy]; [reflexivity|].
  cbn [insert_by]. destruct (Qlt_bool_spec (key y) (key x)); [lra|reflexivity].
Qed.

Lemma insert_by_length key x l :
  length (insert_by key x l) = S (length l).
Proof.
  induction l as [|y l IH]; [reflexivity|]. cbn [insert_by].
  destruct (Qlt_bool _ _); cbn [length]; now rewrite ?IH.
Qed.

Lemma sort_by_length key l : length (sort_by key l) = length l.
Proof.
  induction l as [|x l IH]; [reflexivity|].
  unfold sort_by in *. cbn [foldr]. now rewrite insert_by_length, IH.
Qed.

Lemma max_0_nonneg (x : Q) : 0 <= max 0 x.
Proof. apply max_ge_l. Qed.

(** The operation always returns; what it returns is not negative: 0 on
    fewer than two readings, else the clamped difference between the last
    and the first reading in sorted order. *)
Lemma calculate_usage_returns get start stop :
  exists u,
    calculate_usage_for_period get start stop = Ok u /\ 0 <= u /\
    ((length (get start stop) < 2)%nat -> u = 0) /\
    forall a z,
      (2 <= length (get start stop))%nat ->
      head (sort_by timestamp_key (get start stop)) = Some a ->
      last (sort_by timestamp_key (get start stop)) = Some z ->
      u = max 0 (total_volume z - total_volume a).
Proof.
  unfold calculate_usage_for_period.
  destruct (get start stop) as [|r rs] eqn:E.
  { exists 0. repeat split; [lra|]. intros a z Hlen. cbn in Hlen. lia. }
  pose proof (sort_by_length timestamp_key (r :: rs)) as Hlen.
  destruct (sort_by timestamp_key (r :: rs)) as [|a [|b l]].
  - discriminate Hlen.
  - exists 0. repeat split; [lra|]. intros ? ? H.
    cbn [length] in H, Hlen. lia.
  - cbn [length Nat.ltb Nat.leb head].
    destruct (last (a :: b :: l)) as [z|] eqn:Hlast;
      [|rewrite last_None in Hlast; discriminate].
    eexists. split; [reflexivity|]. split; [apply max_0_nonneg|]. split.
    + intros H. cbn [length] in H, Hlen. lia.
    + now intros a' z' _ [= <-] [= <-].
Qed.

Lemma last_cons_default (vs : list Q) (v v0 : Q) :
  List.last (v :: vs) v0 = List.last vs v.
Proof.
  revert v v0; induction vs as [|w vs IH]; intros v v0; [reflexivity|].
  change (List.last (v :: w :: vs) v0) with (List.last (w :: vs) v0).
  now rewrite (IH w v0), (IH w v).
Qed.

(** Over non-decreasing volumes the clamped differences telescope. *)
Lemma interval_volume_sum_telescopes (v0 : Q) (vs : list Q) :
  Sorted Qle (v0 :: vs) ->
  Spec.interval_volume_sum v0 vs == List.last vs v0 - v0 /\
  v0 <= List.last vs v0.
Proof.
  revert v0; induction vs as [|v vs IH]; intros v0 H.
  - cbn. split; lra.
  - apply Sorted_inv in H as [Hs Hhd]. apply HdRel_inv in Hhd.
    destruct (IH v Hs) as [IHsum IHle].
    cbn [Spec.interval_volume_sum].
    rewrite (last_cons_default vs v v0).
    rewrite IHsum, (max_r 0 (v - v0)) by lra. split; lra.
Qed.

Lemma Sorted_fmap (f : reading -> Q) (l : list reading) :
  Sorted (fun x y => f x <= f y) l -> Sorted Qle (f <$> l).
Proof.
  induction 1 as [|x l Hl IH Hhd]; [constructor|].
  rewrite fmap_cons. constructor; [exact IH|].
  destruct Hhd; rewrite ?fmap_cons; constructor; assumption.
Qed.

Lemma last_fmap_default (f : reading -> Q) (l : list reading) (r z : reading) :
  last (r :: l) = Some z -> List.last (f <$> l) (f r) = f z.
Proof.
  revert r; induction l as [|x l IH]; intros r.
  - now intros [= <-].
  - rewrite last_cons_cons, fmap_cons, last_cons_default. apply IH.
Qed.

End FirebaseFacts.

(** * Claims *)

Section DetectorClaims.
Import Py Pd DataProcessing DetectorView DetectorFacts Examples.

(** C1. On thirty values of 5.0 with 500.0 at position 15, window 20 and
    threshold 3.0, the detector returns thirty booleans: true at position
    15, false at every other position. *)
Theorem C1_spike_flagged_alone :
  exists s : Series,
    detect_anomalies spike_frame "flow_rate" 20 3 = Ok s /\
    length (s_values s) = 30%nat /\
    s_values s = (fun i => EBool (i =? 15)%nat) <$> seq 0 30.
Proof.
  eexists. split; [vm_compute; reflexivity|]. split; reflexivity.
Qed.

(** C2. At every position whose centred window holds one repeated number
    (sample standard deviation 0) the detector returns normally and its
    output is false, whatever the threshold and the repeated value. *)
Theorem C2_constant_window_never_flagged
    (df : DataFrame) (column : string) (window : Z) (threshold c : Q)
    (xs : list cell) (i : nat) :
  wf df ->
  columns df !! column = Some xs ->
  (i < length xs)%nat ->
  Forall (fun x => exists q, x = Num q /\ q == c)
         (window_at xs (Z.to_nat window) i) ->
  exists s : Series,
    detect_anomalies df column window threshold = Ok s /\
    s_values s !! i = Some (EBool false).
Proof.
  intros Hwf Hcol Hi Hall.
  rewrite detect_anomalies_eq.
  rewrite (wf_nonempty df column xs Hwf Hcol)
    by (intros ->; simpl in Hi; lia).
  rewrite Hcol. eexists; split; [reflexivity|].
  destruct ((window <? 0)%Z || has_obj xs); simpl.
  - apply lookup_replicate_2. rewrite <- (Hwf column xs Hcol). exact Hi.
  - rewrite list_lookup_fmap, lookup_seq_lt by exact Hi. simpl.
    now rewrite (flag_at_constant xs _ threshold c i Hi Hall).
Qed.

Lemma C2_witness :
  exists s : Series,
    detect_anomalies flat_frame "pressure" 4 3 = Ok s /\
    s_values s !! 2%nat = Some (EBool false).
Proof.
  apply (C2_constant_window_never_flagged
           flat_frame "pressure" 4 3 7 flat_column 2).
  - apply wf_singleton. reflexivity.
  - reflexivity.
  - vm_compute. lia.
  - vm_compute. repeat constructor; eexists; split; reflexivity.
Defined.

(** C3. On a series shorter than the window, the empty series included,
    the detector returns normally an all-false series of the length of the
    input. *)
Theorem C3_short_series_all_false
    (df : DataFrame) (column : string) (window : Z) (threshold : Q)
    (xs : list cell) :
  wf df ->
  columns df !! column = Some xs ->
  (Z.of_nat (length xs) < window)%Z ->
  detect_anomalies df column window threshold =
    Ok (mkSeries (index df) (replicate (length xs) (EBool false))).
Proof.
  intros Hwf Hcol Hlen. rewrite detect_anomalies_eq.
  pose proof (Hwf column xs Hcol) as Hn.
  destruct xs as [|x xs'] eqn:Exs.
  - unfold empty. simpl in Hn. rewrite <- Hn. simpl.
    unfold Series_nan. now rewrite <- Hn.
  - rewrite <- Exs in *.
    rewrite (wf_nonempty df column xs Hwf Hcol) by (rewrite Exs; discriminate).
    rewrite Hcol.
    destruct ((window <? 0)%Z || has_obj xs).
    + unfold Series_false. now rewrite Hn.
    + f_equal. f_equal.
      rewrite <- (length_seq (length xs) 0) at 2.
      apply const_fmap. intros j k _. f_equal.
      apply flag_at_insufficient.
      pose proof (observations_length (window_at (float_of <$> xs) (Z.to_nat window) k)).
      pose proof (window_at_length (float_of <$> xs) (Z.to_nat window) k).
      rewrite length_fmap in *. lia.
Qed.

Lemma C3_witness :
  detect_anomalies flat_frame "pressure" 20 3 =
    Ok (mkSeries (index flat_frame) (replicate 4 (EBool false))).
Proof.
  apply (C3_short_series_all_false flat_frame "pressure" 20 3 flat_column).
  - apply wf_singleton. reflexivity.
  - reflexivity.
  - vm_compute. reflexivity.
Defined.

(** C8 as stated fails: on a column with a non-numeric entry the detector
    returns an all-false series; it raises nothing. *)
Lemma C8_counterexample :
  columns text_frame !! "flow_rate"%string = Some text_column /\
  Obj "n/a" ∈ text_column /\
  detect_anomalies text_frame "flow_rate" 20 3 =
    Ok (Series_false (index text_frame)) /\
  ~ (exists e : exn, detect_anomalies text_frame "flow_rate" 20 3 = Raise e).
Proof.
  split; [reflexivity|]. split; [unfold text_column; set_solver|].
  split; [vm_compute; reflexivity|].
  intros [e He]. vm_compute in He. discriminate.
Qed.

(** C8, amended. On a column with a non-numeric entry the detector
    recovers from the failure of the rolling aggregation and returns an
    all-false series of the length of the input. *)
Theorem C8_non_numeric_all_false
    (df : DataFrame) (column : string) (window : Z) (threshold : Q)
    (xs : list cell) (s : string) :
  wf df ->
  columns df !! column = Some xs ->
  Obj s ∈ xs ->
  detect_anomalies df column window threshold =
    Ok (mkSeries (index df) (replicate (length xs) (EBool false))).
Proof.
  intros Hwf Hcol Hin. rewrite detect_anomalies_eq.
  rewrite (wf_nonempty df column xs Hwf Hcol)
    by (intros ->; set_solver).
  rewrite Hcol.
  assert (has_obj xs = true) as ->.
  { apply existsb_exists. exists (Obj s). split; [|reflexivity].
    now apply list_elem_of_In. }
  rewrite orb_true_r. unfold Series_false.
  now rewrite (Hwf column xs Hcol).
Qed.

Lemma C8_witness :
  detect_anomalies text_frame "flow_rate" 20 3 =
    Ok (mkSeries (index text_frame) (replicate 4 (EBool false))).
Proof.
  apply (C8_non_numeric_all_false
           text_frame "flow_rate" 20 3 text_column "n/a").
  - apply wf_singleton. reflexivity.
  - reflexivity.
  - unfold text_column. set_solver.
Defined.

(** C10. When the frame lacks the named column the detector returns
    normally a series over the index of the frame whose entries are all
    missing values; none of them is true. *)
Theorem C10_absent_column_no_anomaly
    (df : DataFrame) (column : string) (window : Z) (threshold : Q) :
  columns df !! column = None ->
  exists s : Series,
    detect_anomalies df column window threshold = Ok s /\
    s_index s = index df /\
    s_values s = replicate (length (index df)) ENaN /\
    EBool true ∉ s_values s.
Proof.
  intros Hcol. rewrite detect_anomalies_eq.
  assert (has_column df column = false) as ->.
  { unfold has_column. apply bool_decide_eq_false_2.
    rewrite Hcol. intros [? [=]]. }
  rewrite orb_true_r. eexists; split; [reflexivity|].
  repeat split. simpl. intros [[=] _]%elem_of_replicate.
Qed.

Lemma C10_witness :
  exists s : Series,
    detect_anomalies flat_frame "flow_rate" 20 3 = Ok s /\
    s_index s = index flat_frame /\
    s_values s = replicate (length (index flat_frame)) ENaN /\
    EBool true ∉ s_values s.
Proof.
  apply (C10_absent_column_no_anomaly flat_frame "flow_rate" 20 3).
  vm_compute. reflexivity.
Defined.

End DetectorClaims.

Section UsageClaims.
Import Py Usage UsageFacts Examples.
#[local] Opaque step.








End UsageClaims.

Section FirebaseClaims.
Import Py Firebase FirebaseFacts UsageFacts Examples.

(** C5.  The usage of a period is returned and is never negative.  When
    the fetched readings are in timestamp order and their total volumes do
    not decrease, it equals the sum of the clamped interval volumes
    [max(0, total_volume[i] - total_volume[i-1])], and the total volume of
    the last reading minus that of the first. *)
Theorem C5_usage_is_last_minus_first
    (get_historical_readings : Q -> Q -> list reading) (start stop : Q) :
  exists u : Q,
    calculate_usage_for_period get_historical_readings start stop = Ok u /\
    0 <= u /\
    (Sorted (fun x y => timestamp_key x <= timestamp_key y)
            (get_historical_readings start stop) ->
     Sorted (fun x y => total_volume x <= total_volume y)
            (get_historical_readings start stop) ->
     u == Spec.period_usage (total_volume <$> get_historical_readings start stop) /\
     forall first_reading last_reading,
       head (get_historical_readings start stop) = Some first_reading ->
       last (get_historical_readings start stop) = Some last_reading ->
       u == total_volume last_reading - total_volume first_reading).
Proof.
  destruct (calculate_usage_returns get_historical_readings start stop)
    as (u & Hu & Hpos & _).
  exists u. split; [exact Hu|]. split; [exact Hpos|].
  intros Hts Hvol. revert Hu. unfold calculate_usage_for_period.
  destruct (get_historical_readings start stop) as [|r [|r' rs]] eqn:E.
  - intros [= <-]. split; [reflexivity|]. intros ? ? [=].
  - cbn. intros [= <-]. split; [reflexivity|].
    intros ? ? [= <-] [= <-]. lra.
  - rewrite (sort_by_sorted _ _ Hts).
    cbn [length Nat.ltb Nat.leb head].
    destruct (last (r :: r' :: rs)) as [z|] eqn:Hlast;
      [|rewrite last_None in Hlast; discriminate].
    intros [= <-].
    pose proof (Sorted_fmap total_volume _ Hvol) as Hs.
    rewrite fmap_cons in Hs.
    destruct (interval_volume_sum_telescopes _ _ Hs) as [Hsum Hle].
    rewrite (last_fmap_default total_volume _ r z Hlast) in Hsum, Hle.
    rewrite fmap_cons. cbn [Spec.period_usage].
    assert (max 0 (total_volume z - total_volume r)
            == total_volume z - total_volume r) as Hmax
      by (apply max_r; lra).
    split; [now rewrite Hsum|].
    intros first_reading last_reading [= <-] [= <-]. exact Hmax.
Qed.

Lemma C5_witness :
  Sorted (fun x y => timestamp_key x <= timestamp_key y) metered /\
  Sorted (fun x y => total_volume x <= total_volume y) metered /\
  exists u : Q,
    calculate_usage_for_period (fun _ _ => metered) 0 100 = Ok u /\
    u == Spec.period_usage (total_volume <$> metered) /\
    u == 12.5 - 3.
Proof.
  assert (Sorted (fun x y => timestamp_key x <= timestamp_key y) metered)
    as Hts by (repeat constructor; vm_compute; discriminate).
  assert (Sorted (fun x y => total_volume x <= total_volume y) metered)
    as Hvol by (repeat constructor; vm_compute; discriminate).
  split; [exact Hts|]. split; [exact Hvol|].
  destruct (C5_usage_is_last_minus_first (fun _ _ => metered) 0 100)
    as (u & Hu & _ & H).
  destruct (H Hts Hvol) as [Hsum Hdiff].
  exists u. split; [exact Hu|]. split; [exact Hsum|].
  exact (Hdiff _ _ eq_refl eq_refl).
Defined.

(** C9 as stated fails: a list with a reading that has no timestamp is
    processed to the end; the reading is ordered first and the usage 7 is
    returned, nothing is raised. *)
Lemma C9_counterexample :
  (exists r : reading, r ∈ untimed /\ r !! "timestamp"%string = None) /\
  (exists u : Q,
     calculate_usage_for_period (fun _ _ => untimed) 0 100 = Ok u /\ u == 7) /\
  ~ (exists e : exn,
       calculate_usage_for_period (fun _ _ => untimed) 0 100 = Raise e).
Proof.
  split; [|split].
  - exists {[ "total_volume"%string := 1 ]}. split; [|reflexivity].
    unfold untimed. set_solver.
  - eexists. split; [vm_compute; reflexivity|reflexivity].
  - intros [e He]. vm_compute in He. discriminate He.
Qed.

(** C9, amended.  A reading without a timestamp does not make the
    operation fail: it is ordered as if its timestamp were 0, and the
    operation returns to the caller a usage that is not negative, namely 0
    on fewer than two readings and otherwise the clamped difference between
    the total volumes of the last and the first reading in that order. *)
Theorem C9_missing_timestamp_sorts_as_zero
    (get_historical_readings : Q -> Q -> list reading) (start stop : Q)
    (r : reading) :
  r ∈ get_historical_readings start stop ->
  r !! "timestamp"%string = None ->
  timestamp_key r = 0 /\
  exists u : Q,
    calculate_usage_for_period get_historical_readings start stop = Ok u /\
    0 <= u /\
    ((length (get_historical_readings start stop) < 2)%nat -> u = 0) /\
    forall first_reading last_reading,
      (2 <= length (get_historical_readings start stop))%nat ->
      head (sort_by timestamp_key (get_historical_readings start stop))
        = Some first_reading ->
      last (sort_by timestamp_key (get_historical_readings start stop))
        = Some last_reading ->
      u = max 0 (total_volume last_reading - total_volume first_reading).
Proof.
  intros _ Hr. split.
  - unfold timestamp_key. now rewrite Hr.
  - apply calculate_usage_returns.
Qed.

Lemma C9_witness :
  timestamp_key {[ "total_volume"%string := 1 ]} = 0 /\
  exists u : Q,
    calculate_usage_for_period (fun _ _ => untimed) 0 100 = Ok u /\
    0 <= u /\
    u == 7.
Proof.
  destruct (C9_missing_timestamp_sorts_as_zero (fun _ _ => untimed) 0 100
              {[ "total_volume"%string := 1 ]})
    as (Hkey & u & Hu & Hpos & _ & Hval).
  - unfold untimed. set_solver.
  - reflexivity.
  - split; [exact Hkey|]. exists u. split; [exact Hu|]. split; [exact Hpos|].
    rewrite (Hval {[ "total_volume"%string := 1 ]}
                  {[ "timestamp"%string := 10; "total_volume"%string := 8 ]}).
    + vm_compute. reflexivity.
    + vm_compute. lia.
    + vm_compute. reflexivity.
    + vm_compute. reflexivity.
Defined.

End FirebaseClaims.

(** * Further properties *)

(** ** The detector at one position *)

Module DetectorMoreFacts.
Import Py Pd DataProcessing DetectorView DetectorFacts UsageFacts FloatFacts.

(** What the detector returns at one position of a present column. *)
Lemma detect_anomalies_lookup df column window threshold xs i :
  wf df -> columns df !! column = Some xs -> (i < length xs)%nat ->
  exists s,
    detect_anomalies df column window threshold = Ok s /\
    s_index s = index df /\
    length (s_values s) = length xs /\
    s_values s !! i =
      Some (EBool (negb ((window <? 0)%Z || has_obj xs) &&
                   flag_at (float_of <$> xs) (Z.to_nat window) threshold i)).
Proof.
  intros Hwf Hcol Hi. rewrite detect_anomalies_eq.
  rewrite (wf_nonempty df column xs Hwf Hcol)
    by (intros ->; simpl in Hi; lia).
  rewrite Hcol. eexists; split; [reflexivity|].
  destruct ((window <? 0)%Z || has_obj xs); cbn [negb andb s_index s_values Series_false].
  - split; [reflexivity|]. split.
    + rewrite length_replicate. symmetry. exact (Hwf _ _ Hcol).
    + apply lookup_replicate_2. rewrite <- (Hwf column xs Hcol). exact Hi.
  - split; [reflexivity|]. split.
    + now rewrite length_fmap, length_seq.
    + rewrite list_lookup_fmap, lookup_seq_lt by exact Hi. reflexivity.
Qed.

(** The window is short when it reaches over an end of the series. *)
Lemma window_at_partial {A} (xs : list A) (w i : nat) :
  (1 <= w)%nat ->
  (Z.of_nat i + 1 + (Z.of_nat w - 1) / 2 < Z.of_nat w \/
   Z.of_nat (length xs) < Z.of_nat i + 1 + (Z.of_nat w - 1) / 2)%Z ->
  (length (window_at xs w i) < w)%nat.
Proof.
  intros Hw H. unfold window_at, window_bounds, clip.
  rewrite length_take, length_drop.
  Z.div_mod_to_equations. lia.
Qed.

Lemma observations_with_missing (ws : list (option Q)) :
  None ∈ ws -> (length (observations ws) < length ws)%nat.
Proof.
  unfold observations. induction ws as [|[q|] ws IH]; intros Hin.
  - now apply elem_of_nil in Hin.
  - apply elem_of_cons in Hin as [Hin|Hin]; [discriminate|].
    cbn. apply -> Nat.succ_lt_mono. exact (IH Hin).
  - cbn. pose proof (observations_length ws) as Hle. unfold observations in Hle.
    apply Nat.lt_succ_r. exact Hle.
Qed.

(** An empty window has no mean. *)
Lemma flag_at_zero_window (vs : list (option Q)) (t : Q) (i : nat) :
  flag_at vs 0 t i = false.
Proof.
  unfold flag_at, roll_mean.
  pose proof (window_at_length vs 0 i) as Hlen.
  pose proof (observations_length (window_at vs 0 i)) as Hobs.
  replace (length (observations (window_at vs 0 i))) with 0%nat by lia.
  cbn. now destruct (default None (vs !! i)).
Qed.

End DetectorMoreFacts.

Section DetectorExtras.
Import Py Pd DataProcessing DetectorView DetectorFacts DetectorMoreFacts Examples.
Import MoreExamples.

(** X1. For a present, non-empty column the detector returns a boolean
    mask over the index of the frame: one boolean per row, no missing
    entry. *)
Theorem X1_detector_returns_boolean_mask
    (df : DataFrame) (column : string) (window : Z) (threshold : Q)
    (xs : list cell) :
  wf df ->
  columns df !! column = Some xs ->
  xs <> [] ->
  exists flags : list bool,
    detect_anomalies df column window threshold
      = Ok (mkSeries (index df) (EBool <$> flags)) /\
    length flags = length (index df).
Proof.
  intros Hwf Hcol Hne. rewrite detect_anomalies_eq.
  rewrite (wf_nonempty df column xs Hwf Hcol Hne), Hcol.
  destruct ((window <? 0)%Z || has_obj xs).
  - exists (replicate (length (index df)) false).
    unfold Series_false. now rewrite fmap_replicate, length_replicate.
  - exists ((fun i => flag_at (float_of <$> xs) (Z.to_nat window) threshold i)
              <$> seq 0 (length xs)).
    rewrite <- list_fmap_compose, length_fmap, length_seq.
    split; [reflexivity|]. exact (Hwf _ _ Hcol).
Qed.

Lemma X1_witness :
  exists flags : list bool,
    detect_anomalies spike_frame "flow_rate" 20 3
      = Ok (mkSeries (index spike_frame) (EBool <$> flags)) /\
    length flags = length (index spike_frame).
Proof.
  apply (X1_detector_returns_boolean_mask
           spike_frame "flow_rate" 20 3 spike_column).
  - apply wf_singleton. reflexivity.
  - reflexivity.
  - discriminate.
Defined.

(** X2. A position whose centred window reaches over an end of the series
    is never flagged: with window [w] these are the positions [i] with
    [i + 1 + (w - 1) // 2 < w] or [i + 1 + (w - 1) // 2 > n] (for the
    default window 20: the first ten and the last nine). *)
Theorem X2_partial_window_never_flagged
    (df : DataFrame) (column : string) (window : Z) (threshold : Q)
    (xs : list cell) (i : nat) :
  wf df ->
  columns df !! column = Some xs ->
  (i < length xs)%nat ->
  (Z.of_nat i + 1 + (window - 1) / 2 < window \/
   Z.of_nat (length xs) < Z.of_nat i + 1 + (window - 1) / 2)%Z ->
  exists s : Series,
    detect_anomalies df column window threshold = Ok s /\
    s_values s !! i = Some (EBool false).
Proof.
  intros Hwf Hcol Hi Hedge.
  destruct (detect_anomalies_lookup df column window threshold xs i Hwf Hcol Hi)
    as (s & Hs & _ & _ & Hlook).
  exists s. split; [exact Hs|]. rewrite Hlook. do 2 f_equal.
  destruct (window <? 0)%Z eqn:Ew; [reflexivity|].
  destruct (has_obj xs); [reflexivity|]. cbn [orb negb andb].
  apply Z.ltb_ge in Ew.
  destruct (Z.to_nat window) as [|w'] eqn:Enat; [apply flag_at_zero_window|].
  rewrite <- Enat. apply flag_at_insufficient.
  pose proof (observations_length
                (window_at (float_of <$> xs) (Z.to_nat window) i)) as Hobs.
  assert (length (window_at (float_of <$> xs) (Z.to_nat window) i)
          < Z.to_nat window)%nat as Hwin.
  { apply window_at_partial; [lia|].
    rewrite length_fmap, Z2Nat.id by exact Ew. exact Hedge. }
  lia.
Qed.

Lemma X2_witness :
  exists s : Series,
    detect_anomalies spike_frame "flow_rate" 20 3 = Ok s /\
    s_values s !! 21%nat = Some (EBool false).
Proof.
  apply (X2_partial_window_never_flagged
           spike_frame "flow_rate" 20 3 spike_column 21).
  - apply wf_singleton. reflexivity.
  - reflexivity.
  - vm_compute. lia.
  - right. vm_compute. reflexivity.
Defined.

(** X3. A missing value anywhere in the centred window of a position keeps
    that position from being flagged. *)
Theorem X3_missing_value_in_window_never_flagged
    (df : DataFrame) (column : string) (window : Z) (threshold : Q)
    (xs : list cell) (i : nat) :
  wf df ->
  columns df !! column = Some xs ->
  (i < length xs)%nat ->
  NaN ∈ window_at xs (Z.to_nat window) i ->
  exists s : Series,
    detect_anomalies df column window threshold = Ok s /\
    s_values s !! i = Some (EBool false).
Proof.
  intros Hwf Hcol Hi Hnan.
  destruct (detect_anomalies_lookup df column window threshold xs i Hwf Hcol Hi)
    as (s & Hs & _ & _ & Hlook).
  exists s. split; [exact Hs|]. rewrite Hlook. do 2 f_equal.
  apply andb_false_intro2. apply flag_at_insufficient.
  rewrite window_at_fmap.
  assert (None ∈ float_of <$> window_at xs (Z.to_nat window) i) as Hnone.
  { apply list_elem_of_fmap. exists NaN. split; [reflexivity|exact Hnan]. }
  pose proof (observations_with_missing _ Hnone) as Hlt.
  pose proof (window_at_length xs (Z.to_nat window) i) as Hlen.
  rewrite length_fmap in Hlt. lia.
Qed.

Lemma X3_witness :
  exists s : Series,
    detect_anomalies gap_frame "pressure" 5 3 = Ok s /\
    s_values s !! 11%nat = Some (EBool false).
Proof.
  apply (X3_missing_value_in_window_never_flagged
           gap_frame "pressure" 5 3 gap_column 11).
  - apply wf_singleton. reflexivity.
  - reflexivity.
  - vm_compute. lia.
  - vm_compute. do 3 right. left.
Defined.

End DetectorExtras.

(** ** The threshold *)

Module DetectorBoundFacts.
Import Py Pd DataProcessing DetectorView DetectorFacts UsageFacts FloatFacts DetectorMoreFacts.

(** Raising the threshold never adds a flag. *)
Lemma gt_fabs_div_std_antitone (d v : option Q) (t t' : Q) :
  t <= t' ->
  gt (fabs (div_std d v)) t' = true -> gt (fabs (div_std d v)) t = true.
Proof.
  intros Htt. destruct d as [d|], v as [v|]; cbn [div_std]; try discriminate.
  destruct (Qlt_bool_spec 0 v) as [Hv|Hv].
  - cbn [fabs gt]. pose proof (Qabs_nonneg d) as Habs.
    set (a := Qabs d) in *. clearbody a.
    destruct (Qlt_bool_spec t 0) as [Hneg|Hpos].
    + intros _. apply orb_true_intro. left. now apply Qle_bool_iff.
    + destruct (Qlt_bool_spec t' 0) as [Hneg'|Hpos']; [lra|].
      rewrite !andb_true_iff, !Qlt_bool_iff. intros [Ha Hlt]. split; [exact Ha|].
      assert (t * t <= t' * t') as Hsq by nra.
      assert (t * t * v <= t' * t' * v) as H by (apply Qmult_le_compat_r; lra).
      lra.
  - destruct (Qeq_bool d 0); [discriminate|]. reflexivity.
Qed.

End DetectorBoundFacts.

Section DetectorBoundExtras.
Import Py Pd DataProcessing DetectorView DetectorFacts DetectorMoreFacts.
Import DetectorBoundFacts Examples.

(** X4. Raising the threshold never adds an anomaly: a position flagged at
    a threshold is flagged at every smaller threshold. *)
Theorem X4_flags_shrink_as_threshold_grows
    (df : DataFrame) (column : string) (window : Z) (t t' : Q)
    (xs : list cell) (i : nat) (s' : Series) :
  wf df ->
  columns df !! column = Some xs ->
  t <= t' ->
  detect_anomalies df column window t' = Ok s' ->
  s_values s' !! i = Some (EBool true) ->
  exists s : Series,
    detect_anomalies df column window t = Ok s /\
    s_values s !! i = Some (EBool true).
Proof.
  intros Hwf Hcol Htt Hs' Hi'.
  assert (i < length xs)%nat as Hi.
  { destruct xs as [|x xs'] eqn:E.
    - rewrite detect_anomalies_eq in Hs'. unfold empty in Hs'.
      rewrite <- (Hwf _ _ Hcol) in Hs'. cbn in Hs'. injection Hs' as <-.
      cbn in Hi'. rewrite <- (Hwf _ _ Hcol) in Hi'. discriminate.
    - rewrite <- E in *.
      destruct (detect_anomalies_lookup df column window t' xs 0 Hwf Hcol)
        as (s0 & Hs0 & _ & Hlen & _); [rewrite E; cbn; lia|].
      rewrite Hs' in Hs0. injection Hs0 as <-.
      rewrite <- Hlen. apply lookup_lt_is_Some. eauto. }
  destruct (detect_anomalies_lookup df column window t' xs i Hwf Hcol Hi)
    as (s0 & Hs0 & _ & _ & Hl0).
  rewrite Hs' in Hs0. injection Hs0 as <-. rewrite Hi' in Hl0.
  injection Hl0 as Hl0. symmetry in Hl0. apply andb_true_iff in Hl0 as [Hok Hflag].
  destruct (detect_anomalies_lookup df column window t xs i Hwf Hcol Hi)
    as (s & Hs & _ & _ & Hl).
  exists s. split; [exact Hs|]. rewrite Hl, Hok. cbn [andb]. do 2 f_equal.
  unfold flag_at in *. now apply (gt_fabs_div_std_antitone _ _ t t').
Qed.

Lemma X4_witness :
  exists s : Series,
    detect_anomalies spike_frame "flow_rate" 20 2 = Ok s /\
    s_values s !! 15%nat = Some (EBool true).
Proof.
  apply (X4_flags_shrink_as_threshold_grows
           spike_frame "flow_rate" 20 2 3 spike_column 15
           (mkSeries (index spike_frame)
              ((fun i => EBool (i =? 15)%nat) <$> seq 0 30))).
  - apply wf_singleton. reflexivity.
  - reflexivity.
  - vm_compute. discriminate.
  - vm_compute. reflexivity.
  - reflexivity.
Defined.

End DetectorBoundExtras.


(** ** The generated frames *)

Module GeneratorFacts.
Import Py Usage UsageFacts Generators.

Lemma Ok_inj {A} (a b : A) : Ok a = Ok b -> a = b.
Proof. intros H. now injection H. Qed.

Lemma loop_length g noise dates i s :
  length (loop g noise dates i s) = length dates.
Proof.
  revert i s. induction dates as [|d dates IH]; intros i s; cbn [loop length].
  - reflexivity.
  - now rewrite IH.
Qed.

Lemma usage_rows_length g noise dates rows :
  usage_rows g noise dates = Ok rows -> length rows = length dates.
Proof.
  unfold usage_rows, usage_trace. destruct dates as [|d0 dates']; [discriminate|].
  cbn [bind]. intros H. apply Ok_inj in H. subst rows.
  now rewrite length_fmap, loop_length.
Qed.

Lemma usage_rows_returns g noise dates :
  dates <> [] -> exists rows, usage_rows g noise dates = Ok rows.
Proof.
  destruct dates as [|d0 dates']; [congruence|]. intros _.
  unfold usage_rows, usage_trace. cbn [bind]. eauto.
Qed.

(** Every row of the loop is emitted by one iteration. *)
Lemma usage_rows_lookup g noise dates rows k r :
  usage_rows g noise dates = Ok rows ->
  rows !! k = Some r ->
  exists d s, dates !! k = Some d /\ r = emitted (step g d (noise k) s).
Proof.
  unfold usage_rows, usage_trace. destruct dates as [|d0 dates']; [discriminate|].
  cbn [bind]. intros H. apply Ok_inj in H. subst rows.
  rewrite list_lookup_fmap.
  destruct (loop _ _ _ _ _ !! k) as [it|] eqn:Hit; [|discriminate].
  cbn [fmap option_fmap option_map]. intros H. apply (inj Some) in H. subst r.
  destruct (loop_lookup _ _ _ _ _ _ _ Hit) as (d & s & Hd & ->).
  exists d, s. split; [exact Hd | reflexivity].
Qed.

Lemma step_floors g date d s :
  0 <= flow_rate (emitted (step g date d s)) /\
  0.5 <= pressure (emitted (step g date d s)).
Proof. unfold_step. split; apply max_ge_l. Qed.

(** *** The injected anomalies *)

Lemma sample_fits (n : nat) (sample : list nat) :
  is_sample n sample -> (3 <= n)%nat.
Proof.
  intros (Hlen & Hnd & Hlt).
  assert (sample ⊆+ seq 0 n) as Hsub.
  { apply NoDup_submseteq; [exact Hnd|]. intros x Hx.
    apply elem_of_seq. rewrite Forall_forall in Hlt.
    specialize (Hlt x Hx). lia. }
  apply submseteq_length in Hsub. rewrite length_seq in Hsub. lia.
Qed.

Lemma inject_lookup (rows : list row) (idx : nat) :
  (idx < length rows)%nat ->
  exists rows',
    inject rows idx = Ok rows' /\
    length rows' = length rows /\
    (forall j, j <> idx -> rows' !! j = rows !! j) /\
    (forall r, rows !! idx = Some r ->
       rows' !! idx =
         Some (if (0 <? idx)%nat
               then mkRow (flow_rate r * 3) (pressure r * 1.5) (volume r)
                          (hourly_usage r) (daily_usage r)
               else r)).
Proof.
  intros Hidx. unfold inject. destruct (0 <? idx)%nat.
  - destruct (lookup_lt_is_Some_2 rows idx Hidx) as [r Hr].
    unfold loc at 1. rewrite Hr. cbn [bind].
    unfold loc. rewrite list_lookup_insert_eq by exact Hidx. cbn [bind].
    eexists. split; [reflexivity|]. rewrite !length_insert.
    split; [reflexivity|]. split.
    + intros j Hj. now rewrite !list_lookup_insert_ne by congruence.
    + intros r' Hr'. injection Hr' as <-.
      rewrite list_lookup_insert_eq by (rewrite length_insert; exact Hidx).
      reflexivity.
  - exists rows. repeat split; auto.
Qed.

Lemma inject_all_lookup (sample : list nat) (rows : list row) :
  NoDup sample ->
  Forall (fun idx => (idx < length rows)%nat) sample ->
  exists rows',
    inject_all rows sample = Ok rows' /\
    length rows' = length rows /\
    forall j r, rows !! j = Some r ->
      rows' !! j =
        Some (if bool_decide (j ∈ sample /\ j <> 0%nat)
              then mkRow (flow_rate r * 3) (pressure r * 1.5) (volume r)
                         (hourly_usage r) (daily_usage r)
              else r).
Proof.
  revert rows. induction sample as [|idx sample IH]; intros rows Hnd Hlt.
  - exists rows. cbn [inject_all]. repeat split; auto.
  - apply NoDup_cons in Hnd as [Hnotin Hnd].
    apply Forall_cons in Hlt as [Hidx Hlt].
    destruct (inject_lookup rows idx Hidx) as (rows1 & H1 & Hlen1 & Hother & Hat).
    cbn [inject_all]. rewrite H1. cbn [bind].
    destruct (IH rows1 Hnd) as (rows' & H' & Hlen' & Hlook).
    { now rewrite Hlen1. }
    exists rows'. split; [exact H'|]. split; [congruence|].
    intros j r Hr. destruct (decide (j = idx)) as [->|Hne].
    + rewrite (Hlook idx _ (Hat r Hr)).
      rewrite (bool_decide_eq_false_2 (idx ∈ sample /\ _)) by tauto.
      destruct idx as [|idx'].
      * rewrite bool_decide_eq_false_2 by (intros [_ H]; congruence).
        reflexivity.
      * rewrite bool_decide_eq_true_2; [reflexivity|].
        split; [left|discriminate].
    + rewrite (Hlook j r) by (rewrite Hother; assumption).
      rewrite (bool_decide_ext (j ∈ idx :: sample /\ j <> 0%nat)
                 (j ∈ sample /\ j <> 0%nat)); [reflexivity|].
      rewrite elem_of_cons. tauto.
Qed.

Lemma inject_all_floors (rows rows' : list row) (sample : list nat) :
  (forall j r, rows !! j = Some r ->
     rows' !! j =
       Some (if bool_decide (j ∈ sample /\ j <> 0%nat)
             then mkRow (flow_rate r * 3) (pressure r * 1.5) (volume r)
                        (hourly_usage r) (daily_usage r)
             else r)) ->
  length rows' = length rows ->
  Forall (fun r => 0 <= flow_rate r /\ 0.5 <= pressure r) rows ->
  Forall (fun r => 0 <= flow_rate r /\ 0.5 <= pressure r) rows'.
Proof.
  intros Hlook Hlen Hrows. apply Forall_lookup. intros j r' Hr'.
  destruct (lookup_lt_is_Some_2 rows j) as [r Hr].
  { rewrite <- Hlen. apply lookup_lt_is_Some. eauto. }
  rewrite (Hlook j r Hr) in Hr'. injection Hr' as <-.
  rewrite Forall_lookup in Hrows. specialize (Hrows j r Hr) as [Hf Hp].
  destruct (bool_decide _); cbn [flow_rate pressure]; split; lra.
Qed.

(** *** Rounding to two decimals *)

Lemma Qle_bool_comp (a b c d : Q) :
  a == c -> b == d -> Qle_bool a b = Qle_bool c d.
Proof.
  intros E1 E2. apply Bool.eq_iff_eq_true.
  rewrite !Qle_bool_iff, E1, E2. reflexivity.
Qed.

Lemma round_half_even_comp (x y : Q) :
  x == y -> round_half_even x = round_half_even y.
Proof.
  intros E. unfold round_half_even, Qlt_bool.
  rewrite (Qfloor_comp _ _ E).
  assert (x - inject_Z (Qfloor y) == y - inject_Z (Qfloor y)) as E'
    by (rewrite E; reflexivity).
  rewrite (Qle_bool_comp (1 # 2) _ (1 # 2) _ (Qeq_refl _) E').
  rewrite (Qle_bool_comp _ (1 # 2) _ (1 # 2) E' (Qeq_refl _)).
  reflexivity.
Qed.

Lemma round_half_even_inject (k : Z) : round_half_even (inject_Z k) = k.
Proof.
  unfold round_half_even. rewrite Qfloor_Z.
  assert (inject_Z k - inject_Z k == 0) as E by ring.
  unfold Qlt_bool.
  rewrite (Qle_bool_comp (1 # 2) _ (1 # 2) 0 (Qeq_refl _) E). reflexivity.
Qed.

Lemma round2_comp (x y : Q) : x == y -> round2 x = round2 y.
Proof.
  intros E. unfold round2.
  rewrite (round_half_even_comp (x * 100) (y * 100)); [reflexivity|].
  now rewrite E.
Qed.

(** A value with two decimals is its own rounding. *)
Lemma round2_idempotent (x : Q) : round2 (round2 x) = round2 x.
Proof.
  unfold round2 at 1 3.
  rewrite (round_half_even_comp _ (inject_Z (round_half_even (x * 100)))).
  - now rewrite round_half_even_inject.
  - unfold round2. field.
Qed.

Lemma stored_comp g (x y : Q) : x == y -> stored g x == stored g y.
Proof.
  intros E. destruct g; cbn [stored]; [|exact E].
  now rewrite (round2_comp x y E).
Qed.

Lemma stored_idempotent g (x : Q) : stored g (stored g x) = stored g x.
Proof. destruct g; cbn [stored]; [apply round2_idempotent | reflexivity]. Qed.

Lemma step_volume_stored g date d s :
  volume (emitted (step g date d s))
  = stored g (volume (emitted (step g date d s))).
Proof. unfold_step. now rewrite stored_idempotent. Qed.

(** An iteration that finds the hourly sum at zero, or resets it, stores
    the interval volume as the hourly usage. *)
Lemma step_hourly_is_volume g date d s :
  hour_reset (step g date d s) = true \/ hourly_sum s = 0 ->
  hourly_usage (emitted (step g date d s))
    == volume (emitted (step g date d s)).
Proof.
  intros H. rewrite step_hourly_usage, step_hourly_sum.
  assert ((if hour_reset (step g date d s) then 0 else hourly_sum s) = 0) as ->.
  { destruct H as [-> | ->]; [reflexivity | now destruct (hour_reset _)]. }
  rewrite (step_volume_stored g date d s) at 2. apply stored_comp. ring.
Qed.

End GeneratorFacts.

Section GeneratorExtras.
Import Py Usage UsageFacts Generators GeneratorFacts Examples.

(** X7. The anomalies injected after the loop: the generator returns one
    row per date; a row drawn by the sample, other than row 0, has its
    flow rate tripled and its pressure multiplied by 1.5, once; every
    other row, row 0 included even when it is drawn, is the row of the
    loop; the volume and the two usage columns are never touched. *)
Theorem X7_anomalies_scale_sampled_rows_only
    (g : generator) (noise : nat -> draws) (dates : list datetime)
    (sample : list nat) (rows : list row) :
  usage_rows g noise dates = Ok rows ->
  is_sample (length rows) sample ->
  exists rows' : list row,
    frame g noise dates sample = Ok rows' /\
    length rows' = length dates /\
    forall (j : nat) (r : row), rows !! j = Some r ->
      exists r' : row,
        rows' !! j = Some r' /\
        volume r' = volume r /\
        hourly_usage r' = hourly_usage r /\
        daily_usage r' = daily_usage r /\
        (if bool_decide (j ∈ sample /\ j <> 0%nat)
         then flow_rate r' = flow_rate r * 3 /\
              pressure r' = pressure r * 1.5
         else r' = r).
Proof.
  intros Hrows Hsample.
  pose proof (sample_fits _ _ Hsample) as Hfit.
  destruct Hsample as (_ & Hnd & Hlt).
  destruct (inject_all_lookup sample rows Hnd Hlt) as (rows' & H' & Hlen & Hlook).
  exists rows'. unfold frame. rewrite Hrows. cbn [bind]. unfold choice.
  replace (length rows <? 3)%nat with false
    by (symmetry; apply Nat.ltb_ge; exact Hfit).
  cbn [bind]. split; [exact H'|].
  split; [rewrite Hlen; exact (usage_rows_length _ _ _ _ Hrows)|].
  intros j r Hr. rewrite (Hlook j r Hr).
  destruct (bool_decide _); eexists; (split; [reflexivity|]);
    cbn [volume hourly_usage daily_usage flow_rate pressure]; auto.
Qed.

Lemma X7_witness :
  exists rows' : list row,
    frame DemoData quiet morning [2; 0; 3]%nat = Ok rows' /\
    length rows' = length morning /\
    forall (j : nat) (r : row),
      (emitted <$> run DemoData quiet morning) !! j = Some r ->
      exists r' : row,
        rows' !! j = Some r' /\
        volume r' = volume r /\
        hourly_usage r' = hourly_usage r /\
        daily_usage r' = daily_usage r /\
        (if bool_decide (j ∈ [2; 0; 3]%nat /\ j <> 0%nat)
         then flow_rate r' = flow_rate r * 3 /\
              pressure r' = pressure r * 1.5
         else r' = r).
Proof.
  apply (X7_anomalies_scale_sampled_rows_only DemoData quiet morning
           [2; 0; 3]%nat (emitted <$> run DemoData quiet morning)).
  - reflexivity.
  - split; [reflexivity|]. split.
    + apply (bool_decide_unpack (NoDup [2; 0; 3]%nat)). vm_compute. exact I.
    + repeat constructor.
Defined.

(** X8. Fewer than three dates make the generator raise: [dates[0]]
    fails on an empty list, and with one or two rows there are not
    enough rows to draw three distinct positions from. *)
Theorem X8_short_range_raises
    (g : generator) (noise : nat -> draws) (dates : list datetime)
    (sample : list nat) :
  (length dates < 3)%nat ->
  frame g noise dates sample =
    Raise (if bool_decide (dates = []) then IndexError else ValueError).
Proof.
  intros Hshort. unfold frame.
  destruct dates as [|d0 dates'] eqn:E; [reflexivity|].
  rewrite <- E in *.
  destruct (usage_rows_returns g noise dates) as [rows Hrows];
    [rewrite E; discriminate|].
  rewrite Hrows. cbn [bind]. unfold choice.
  rewrite (usage_rows_length _ _ _ _ Hrows).
  replace (length dates <? 3)%nat with true
    by (symmetry; apply Nat.ltb_lt; exact Hshort).
  cbn [bind]. rewrite bool_decide_eq_false_2 by (rewrite E; discriminate).
  reflexivity.
Qed.

Lemma X8_witness :
  frame HistoricalData quiet day_apart [0; 1; 2]%nat = Raise ValueError.
Proof.
  apply (X8_short_range_raises HistoricalData quiet day_apart [0; 1; 2]%nat).
  vm_compute. lia.
Defined.

(** X9. Whatever the draws, no row of a generated frame has a negative
    flow rate or a pressure below 0.5, also after the anomalies are
    injected. *)
Theorem X9_generated_rows_keep_floors
    (g : generator) (noise : nat -> draws) (dates : list datetime)
    (sample : list nat) (rows' : list row) :
  is_sample (length dates) sample ->
  frame g noise dates sample = Ok rows' ->
  Forall (fun r => 0 <= flow_rate r /\ 0.5 <= pressure r) rows'.
Proof.
  intros Hsample Hframe.
  pose proof (sample_fits _ _ Hsample) as Hfit.
  destruct (usage_rows_returns g noise dates) as [rows Hrows].
  { intros ->. cbn in Hfit. lia. }
  pose proof (usage_rows_length _ _ _ _ Hrows) as Hlen.
  destruct Hsample as (_ & Hnd & Hlt). rewrite <- Hlen in Hlt.
  destruct (inject_all_lookup sample rows Hnd Hlt) as (rows1 & H1 & Hlen1 & Hlook).
  unfold frame in Hframe. rewrite Hrows in Hframe. cbn [bind] in Hframe.
  unfold choice in Hframe.
  replace (length rows <? 3)%nat with false in Hframe
    by (symmetry; apply Nat.ltb_ge; lia).
  cbn [bind] in Hframe. rewrite H1 in Hframe. apply Ok_inj in Hframe.
  subst rows1.
  apply (inject_all_floors rows rows' sample Hlook Hlen1).
  apply Forall_lookup. intros k r Hr.
  destruct (usage_rows_lookup _ _ _ _ _ _ Hrows Hr) as (d & s & _ & ->).
  apply step_floors.
Qed.

Lemma X9_witness :
  Forall (fun r => 0 <= flow_rate r /\ 0.5 <= pressure r)
    (match frame HistoricalData low_draws morning [2; 0; 3]%nat with
     | Ok rows' => rows'
     | Raise _ => []
     end).
Proof.
  apply (X9_generated_rows_keep_floors HistoricalData low_draws morning
           [2; 0; 3]%nat).
  - split; [reflexivity|]. split.
    + apply (bool_decide_unpack (NoDup [2; 0; 3]%nat)). vm_compute. exact I.
    + repeat constructor.
  - vm_compute. reflexivity.
Defined.

End GeneratorExtras.

(** ** The usage loop on hourly dates *)

Module HourlyFacts.
Import Py Usage UsageFacts Generators GeneratorFacts.

#[local] Opaque step.

Lemma usage_trace_length g noise dates trace :
  usage_trace g noise dates = Ok trace -> length trace = length dates.
Proof.
  unfold usage_trace. destruct dates as [|d0 dates']; [discriminate|].
  intros H. apply Ok_inj in H. subst trace. apply loop_length.
Qed.

(** The first iteration starts from empty sums. *)
Lemma usage_trace_head g noise dates trace it :
  usage_trace g noise dates = Ok trace ->
  trace !! 0%nat = Some it ->
  exists d s, it = step g d (noise 0%nat) s /\ hourly_sum s = 0 /\ daily_sum s = 0.
Proof.
  unfold usage_trace. destruct dates as [|d0 dates']; [discriminate|].
  intros H. apply Ok_inj in H. subst trace. cbn [loop].
  intros H. apply (inj Some) in H. subst it.
  eexists _, _. split; [reflexivity|]. split; reflexivity.
Qed.

Lemma hourly_range_row g noise start n trace k it :
  valid start ->
  usage_trace g noise (date_range start n) = Ok trace ->
  trace !! k = Some it ->
  hourly_usage (emitted it) == volume (emitted it).
Proof.
  intros Hvalid Htrace Hit. destruct k as [|k].
  - destruct (usage_trace_head _ _ _ _ _ Htrace Hit) as (d & s & -> & Hs & _).
    apply step_hourly_is_volume. now right.
  - pose proof (usage_trace_length _ _ _ _ Htrace) as Hlen.
    pose proof (lookup_lt_Some _ _ _ Hit) as Hk.
    destruct (lookup_lt_is_Some_2 trace k) as [it0 Hit0]; [lia|].
    destruct (lookup_lt_is_Some_2 (date_range start n) k) as [d Hd]; [lia|].
    destruct (lookup_lt_is_Some_2 (date_range start n) (S k)) as [d' Hd']; [lia|].
    destruct (hourly_range_resets_at_crossings
                g noise start n trace k d d' it0 it Hvalid Htrace Hd Hd' Hit0 Hit)
      as (_ & Hreset & _).
    destruct (usage_trace_consecutive _ _ _ _ _ _ _ _ _ Htrace Hd Hd' Hit0 Hit)
      as (-> & _).
    apply step_hourly_is_volume. now left.
Qed.

(** With no draw below -1 the daily sum never falls below the volume
    just added. *)
Lemma loop_daily_sum_ge_volume g noise dates i s k it :
  (forall j, -1 <= flow_noise (noise j)) ->
  0 <= daily_sum s ->
  loop g noise dates i s !! k = Some it ->
  exists date d s',
    it = step g date d s' /\
    volume (emitted it) <= daily_sum (sums_after it).
Proof.
  intros Hnoise. revert i s k.
  induction dates as [|date dates IH]; intros i s k Hs; [discriminate|].
  cbn [loop].
  pose proof (step_volume_nonneg g date (noise i) s (Hnoise i)) as Hvol.
  pose proof (step_daily_sum g date (noise i) s) as Hsum.
  assert (volume (emitted (step g date (noise i) s))
          <= daily_sum (sums_after (step g date (noise i) s))) as Hge.
  { rewrite Hsum. destruct (day_reset _); lra. }
  destruct k as [|k].
  - intros H. apply (inj Some) in H. subst it. eauto.
  - cbn [lookup list_lookup]. apply IH. lra.
Qed.

End HourlyFacts.

Section HourlyExtras.
Import Py Usage UsageFacts Generators GeneratorFacts HourlyFacts Examples.

(** X10. On the dates the generators build, one per hour, every row is the
    first of its hour: the hourly usage of a row is its own volume, in
    both generators and whatever the draws. *)
Theorem X10_hourly_usage_is_volume_on_hourly_dates
    (g : generator) (noise : nat -> draws) (start : datetime) (n : nat)
    (rows : list row) :
  valid start ->
  usage_rows g noise (date_range start n) = Ok rows ->
  Forall (fun r => hourly_usage r == volume r) rows.
Proof.
  intros Hvalid Hrows. unfold usage_rows in Hrows.
  destruct (usage_trace g noise (date_range start n)) as [trace|e] eqn:Htrace;
    [|discriminate].
  cbn [bind] in Hrows. apply Ok_inj in Hrows. subst rows.
  apply Forall_lookup. intros k r. rewrite list_lookup_fmap.
  destruct (trace !! k) as [it|] eqn:Hit; [|discriminate].
  intros H. apply (inj Some) in H. subst r.
  exact (hourly_range_row g noise start n trace k it Hvalid Htrace Hit).
Qed.

Lemma X10_witness :
  Forall (fun r => hourly_usage r == volume r)
    (emitted <$> run HistoricalData quiet
                   (date_range (mkDatetime 2024 2 28 22 30 0) 30)).
Proof.
  apply (X10_hourly_usage_is_volume_on_hourly_dates HistoricalData quiet
           (mkDatetime 2024 2 28 22 30 0) 30).
  - vm_compute. intuition discriminate.
  - reflexivity.
Defined.

(** X11. On hourly dates, and as long as no flow draw is below -1 (no
    negative volume), the hourly usage of a row never exceeds its daily
    usage. *)
Theorem X11_hourly_usage_within_daily_usage
    (g : generator) (noise : nat -> draws) (start : datetime) (n : nat)
    (rows : list row) :
  valid start ->
  (forall j, -1 <= flow_noise (noise j)) ->
  usage_rows g noise (date_range start n) = Ok rows ->
  Forall (fun r => hourly_usage r <= daily_usage r) rows.
Proof.
  intros Hvalid Hnoise Hrows. unfold usage_rows in Hrows.
  destruct (usage_trace g noise (date_range start n)) as [trace|e] eqn:Htrace;
    [|discriminate].
  cbn [bind] in Hrows. apply Ok_inj in Hrows. subst rows.
  apply Forall_lookup. intros k r. rewrite list_lookup_fmap.
  destruct (trace !! k) as [it|] eqn:Hit; [|discriminate].
  intros H. apply (inj Some) in H. subst r.
  rewrite (hourly_range_row g noise start n trace k it Hvalid Htrace Hit).
  destruct (usage_trace_emitted _ _ _ _ _ _ Htrace Hit) as [_ ->].
  unfold usage_trace in Htrace.
  destruct (date_range start n) as [|d0 dates']; [discriminate|].
  apply Ok_inj in Htrace. subst trace.
  assert (0 <= daily_sum (mkSums 0 0 (day d0) (hour d0))) as H0
    by (cbn [daily_sum]; lra).
  destruct (loop_daily_sum_ge_volume g noise _ _ _ k it Hnoise H0 Hit)
    as (date & d & s' & -> & Hge).
  rewrite step_volume_stored. now apply stored_mono.
Qed.

Lemma X11_witness :
  Forall (fun r => hourly_usage r <= daily_usage r)
    (emitted <$> run HistoricalData quiet
                   (date_range (mkDatetime 2024 2 28 22 30 0) 30)).
Proof.
  apply (X11_hourly_usage_within_daily_usage HistoricalData quiet
           (mkDatetime 2024 2 28 22 30 0) 30).
  - vm_compute. intuition discriminate.
  - intros j. vm_compute. discriminate.
  - reflexivity.
Defined.

End HourlyExtras.

(** ** The readings of the live database *)

Module ManagerFacts.
Import Py Firebase UsageFacts FirebaseFacts Manager.

(** *** Sorting *)

Lemma insert_by_perm key x l : insert_by key x l ≡ₚ x :: l.
Proof.
  induction l as [|y l IH]; [reflexivity|]. cbn [insert_by].
  destruct (Qlt_bool _ _); [|reflexivity].
  rewrite IH. apply Permutation_swap.
Qed.

Lemma sort_by_perm key l : sort_by key l ≡ₚ l.
Proof.
  induction l as [|x l IH]; [reflexivity|].
  unfold sort_by in *. cbn [foldr]. now rewrite insert_by_perm, IH.
Qed.

Lemma insert_by_HdRel key a x l :
  key a <= key x ->
  HdRel (fun u v => key u <= key v) a l ->
  HdRel (fun u v => key u <= key v) a (insert_by key x l).
Proof.
  intros Hax Hal. destruct l as [|y l]; cbn [insert_by].
  - now constructor.
  - apply HdRel_inv in Hal. destruct (Qlt_bool _ _); now constructor.
Qed.

Lemma insert_by_is_sorted key x l :
  Sorted (fun u v => key u <= key v) l ->
  Sorted (fun u v => key u <= key v) (insert_by key x l).
Proof.
  induction 1 as [|y l Hl IH Hhd]; cbn [insert_by].
  - repeat constructor.
  - destruct (Qlt_bool_spec (key y) (key x)) as [Hlt|Hge].
    + constructor; [exact IH|]. apply insert_by_HdRel; [lra|exact Hhd].
    + constructor; [now constructor|]. constructor. lra.
Qed.

Lemma sort_by_is_sorted key l :
  Sorted (fun u v => key u <= key v) (sort_by key l).
Proof.
  induction l as [|x l IH]; [constructor|].
  unfold sort_by in *. cbn [foldr]. now apply insert_by_is_sorted.
Qed.

Lemma Sorted_fmap_key (key : reading -> Q) (f : reading -> reading) l :
  (forall r, key (f r) = key r) ->
  Sorted (fun u v => key u <= key v) l ->
  Sorted (fun u v => key u <= key v) (f <$> l).
Proof.
  intros Hkey. induction 1 as [|x l Hl IH Hhd]; [constructor|].
  rewrite fmap_cons. constructor; [exact IH|].
  destruct Hhd; rewrite ?fmap_cons; constructor. now rewrite !Hkey.
Qed.

(** *** Litres *)

Lemma to_liters_timestamp (r : reading) :
  timestamp_key (to_liters r) = timestamp_key r.
Proof.
  unfold to_liters, timestamp_key.
  destruct (r !! "total_ml"%string); [|reflexivity].
  now rewrite lookup_insert_ne by discriminate.
Qed.

Lemma to_liters_timestamp_lookup (r : reading) :
  to_liters r !! "timestamp"%string = r !! "timestamp"%string.
Proof.
  unfold to_liters.
  destruct (r !! "total_ml"%string); [|reflexivity].
  now rewrite lookup_insert_ne by discriminate.
Qed.

Lemma to_liters_total_ml (r : reading) (ml : Q) :
  to_liters r !! "total_ml"%string = Some ml ->
  to_liters r !! "total_volume"%string = Some (ml / 1000.0).
Proof.
  unfold to_liters.
  destruct (r !! "total_ml"%string) as [ml'|] eqn:E.
  - rewrite lookup_insert_ne by discriminate. rewrite E.
    intros [= <-]. now rewrite lookup_insert_eq.
  - rewrite E. discriminate.
Qed.

Lemma to_liters_volume (r : reading) (ml : Q) :
  r !! "total_ml"%string = Some ml ->
  total_volume (to_liters r) = ml / 1000.0.
Proof.
  intros E. unfold to_liters, total_volume. rewrite E.
  now rewrite lookup_insert_eq.
Qed.

(** *** The paths *)

Section Paths.
Variable get : string -> Q -> Q -> reply.
Variables start_timestamp end_timestamp : Q.

Lemma visit_skip (path : string) (readings : list value) :
  (forall v vs, get path start_timestamp end_timestamp
                <> Response 200 (Some (Object (v :: vs)))) ->
  visit get start_timestamp end_timestamp path readings = (readings, false).
Proof.
  intros Hno. unfold visit.
  destruct (get path start_timestamp end_timestamp) as [|code json];
    [reflexivity|].
  destruct (code =? 200)%Z eqn:Ecode; [|reflexivity].
  apply Z.eqb_eq in Ecode. subst code.
  destruct json as [[[|v vs]|]|]; try reflexivity.
  now destruct (Hno v vs).
Qed.

Lemma visit_answer (path : string) (readings : list value) v vs :
  get path start_timestamp end_timestamp
    = Response 200 (Some (Object (v :: vs))) ->
  visit get start_timestamp end_timestamp path readings
    = (readings ++ v :: vs, true).
Proof.
  intros E. unfold visit. rewrite E. cbn [Z.eqb Pos.eqb]. f_equal.
  rewrite bool_decide_eq_false_2; [reflexivity|].
  now destruct readings.
Qed.

Lemma for_paths_first (before after : list string) (path : string) v vs :
  (forall p, p ∈ before ->
     forall v' vs', get p start_timestamp end_timestamp
                    <> Response 200 (Some (Object (v' :: vs')))) ->
  get path start_timestamp end_timestamp
    = Response 200 (Some (Object (v :: vs))) ->
  for_paths get start_timestamp end_timestamp (before ++ path :: after) []
    = v :: vs.
Proof.
  intros Hbefore Hpath. induction before as [|p before IH]; cbn [app for_paths].
  - now rewrite (visit_answer _ _ _ _ Hpath).
  - rewrite visit_skip by (apply Hbefore; left).
    apply IH. intros p' Hp'. apply Hbefore. now right.
Qed.

Lemma for_paths_none (paths : list string) :
  (forall p, p ∈ paths ->
     forall v vs, get p start_timestamp end_timestamp
                  <> Response 200 (Some (Object (v :: vs)))) ->
  for_paths get start_timestamp end_timestamp paths [] = [].
Proof.
  intros Hno. induction paths as [|p paths IH]; cbn [for_paths]; [reflexivity|].
  rewrite visit_skip by (apply Hno; left).
  apply IH. intros p' Hp'. apply Hno. now right.
Qed.

Lemma mapM_as_dict_readings (rs : list reading) :
  mapM as_dict (Reading <$> rs) = Some rs.
Proof.
  apply mapM_Some. induction rs as [|r rs IH]; constructor; auto.
Qed.

Lemma mapM_as_dict_malformed (values : list value) :
  NotADict ∈ values -> mapM as_dict values = None.
Proof.
  intros Hin. apply eq_None_not_Some. rewrite mapM_is_Some.
  rewrite Forall_forall. intros H. specialize (H _ Hin).
  now destruct H.
Qed.

(** What the method returns is sorted by timestamp and converted. *)
Lemma get_historical_readings_sorted :
  Sorted (fun x y => timestamp_key x <= timestamp_key y)
    (get_historical_readings get start_timestamp end_timestamp) /\
  Forall (fun r => forall ml,
            r !! "total_ml"%string = Some ml ->
            r !! "total_volume"%string = Some (ml / 1000.0))
    (get_historical_readings get start_timestamp end_timestamp).
Proof.
  unfold get_historical_readings, get_historical_readings_body.
  destruct (negb _); [|split; constructor].
  destruct (mapM as_dict _) as [rs|]; [|split; constructor].
  cbn [mbind option_bind default]. split.
  - apply Sorted_fmap_key; [apply to_liters_timestamp|apply sort_by_is_sorted].
  - apply Forall_fmap, Forall_forall. intros r _ ml. apply to_liters_total_ml.
Qed.

End Paths.

Lemma head_elem_of {A} (l : list A) (a : A) : head l = Some a -> a ∈ l.
Proof. destruct l; [discriminate|]. intros [= ->]. left. Qed.

Lemma last_elem_of {A} (l : list A) (a : A) : last l = Some a -> a ∈ l.
Proof.
  intros H. apply last_Some in H as [l' ->]. apply elem_of_app. right. left.
Qed.

End ManagerFacts.

Section ManagerExtras.
Import Py Firebase UsageFacts FirebaseFacts Manager ManagerFacts MoreExamples.

(** X12. With [demo_mode] off, [get_historical_readings] never raises and
    what it returns is in timestamp order (a reading without a timestamp
    counting as 0), with [total_volume = total_ml / 1000] in every
    reading that has a [total_ml]. *)
Theorem X12_live_readings_sorted_and_in_litres
    (get : string -> Q -> Q -> reply) (start_timestamp end_timestamp : Q) :
  Sorted (fun x y => timestamp_key x <= timestamp_key y)
    (get_historical_readings get start_timestamp end_timestamp) /\
  Forall (fun r => forall ml,
            r !! "total_ml"%string = Some ml ->
            r !! "total_volume"%string = Some (ml / 1000.0))
    (get_historical_readings get start_timestamp end_timestamp).
Proof. apply get_historical_readings_sorted. Qed.

(** X13. The paths [sensor_readings], [readings], [data] are tried in
    this order and the first one that answers with status 200 and a
    non-empty JSON object supplies all the readings: earlier paths that
    fail in any way and all later paths contribute nothing. *)
Theorem X13_first_answering_path_supplies_readings
    (get : string -> Q -> Q -> reply) (start_timestamp end_timestamp : Q)
    (before after : list string) (path : string) (rs : list reading) :
  possible_paths = before ++ path :: after ->
  (forall p, p ∈ before ->
     forall v vs, get p start_timestamp end_timestamp
                  <> Response 200 (Some (Object (v :: vs)))) ->
  get path start_timestamp end_timestamp
    = Response 200 (Some (Object (Reading <$> rs))) ->
  rs <> [] ->
  get_historical_readings get start_timestamp end_timestamp
    = to_liters <$> sort_by timestamp_key rs.
Proof.
  intros Hpaths Hbefore Hpath Hne.
  destruct rs as [|r rs']; [congruence|].
  unfold get_historical_readings, get_historical_readings_body.
  rewrite Hpaths.
  rewrite fmap_cons in Hpath.
  rewrite (for_paths_first get _ _ before after path _ _ Hbefore Hpath).
  rewrite bool_decide_eq_false_2 by discriminate. cbn [negb].
  rewrite <- fmap_cons, mapM_as_dict_readings. reflexivity.
Qed.

Lemma X13_witness :
  get_historical_readings device_db 0 500
    = to_liters <$> sort_by timestamp_key ml_readings.
Proof.
  apply (X13_first_answering_path_supplies_readings device_db 0 500
           ["sensor_readings"%string] ["data"%string] "readings"%string
           ml_readings).
  - reflexivity.
  - intros p Hp v vs. apply list_elem_of_singleton in Hp. subst p.
    vm_compute. discriminate.
  - reflexivity.
  - discriminate.
Defined.

(** X14. One entry that is not a dict under the answering path loses
    every reading: the method returns the empty list. *)
Theorem X14_malformed_entry_discards_all_readings
    (get : string -> Q -> Q -> reply) (start_timestamp end_timestamp : Q)
    (before after : list string) (path : string) (values : list value) :
  possible_paths = before ++ path :: after ->
  (forall p, p ∈ before ->
     forall v vs, get p start_timestamp end_timestamp
                  <> Response 200 (Some (Object (v :: vs)))) ->
  get path start_timestamp end_timestamp
    = Response 200 (Some (Object values)) ->
  NotADict ∈ values ->
  get_historical_readings get start_timestamp end_timestamp = [].
Proof.
  intros Hpaths Hbefore Hpath Hbad.
  destruct values as [|v vs]; [now apply elem_of_nil in Hbad|].
  unfold get_historical_readings, get_historical_readings_body.
  rewrite Hpaths.
  rewrite (for_paths_first get _ _ before after path v vs Hbefore Hpath).
  rewrite bool_decide_eq_false_2 by discriminate. cbn [negb].
  now rewrite (mapM_as_dict_malformed _ Hbad).
Qed.

Lemma X14_witness : get_historical_readings stray_db 0 500 = [].
Proof.
  apply (X14_malformed_entry_discards_all_readings stray_db 0 500
           [] ["readings"; "data"]%string "sensor_readings"%string
           ((Reading <$> ml_readings) ++ [NotADict])).
  - reflexivity.
  - intros p Hp. now apply elem_of_nil in Hp.
  - reflexivity.
  - apply elem_of_app. right. left.
Defined.

(** X15. When no path answers with status 200 and a non-empty JSON
    object (the request fails, the status differs, the body does not
    parse, or it is not an object or an empty one), the method returns
    the empty list. *)
Theorem X15_no_answering_path_gives_no_readings
    (get : string -> Q -> Q -> reply) (start_timestamp end_timestamp : Q) :
  (forall p, p ∈ possible_paths ->
     forall v vs, get p start_timestamp end_timestamp
                  <> Response 200 (Some (Object (v :: vs)))) ->
  get_historical_readings get start_timestamp end_timestamp = [].
Proof.
  intros Hno.
  unfold get_historical_readings, get_historical_readings_body.
  now rewrite (for_paths_none get _ _ possible_paths Hno).
Qed.

Lemma X15_witness : get_historical_readings offline_db 0 500 = [].
Proof.
  apply (X15_no_answering_path_gives_no_readings offline_db 0 500).
  intros p _ v vs. discriminate.
Defined.

(** X16. With [demo_mode] off, the usage over a period is computed from
    the counters of the first and the last reading that
    [get_historical_readings] returns, in litres: sorting them again
    changes nothing, and with counters [total_ml] of [ma] and [mz]
    millilitres the usage is [max(0, mz / 1000 - ma / 1000)]. *)
Theorem X16_usage_from_millilitre_counters
    (get : string -> Q -> Q -> reply) (start_timestamp end_timestamp : Q)
    (a z : reading) (ma mz : Q) :
  (2 <= length (get_historical_readings get start_timestamp end_timestamp))%nat ->
  head (get_historical_readings get start_timestamp end_timestamp) = Some a ->
  last (get_historical_readings get start_timestamp end_timestamp) = Some z ->
  a !! "total_ml"%string = Some ma ->
  z !! "total_ml"%string = Some mz ->
  _calculate_usage_for_period get start_timestamp end_timestamp
    = Ok (max 0 (mz / 1000.0 - ma / 1000.0)).
Proof.
  intros Hlen Ha Hz Hma Hmz. unfold _calculate_usage_for_period.
  destruct (get_historical_readings_sorted get start_timestamp end_timestamp)
    as [Hsorted Hlitres].
  destruct (calculate_usage_returns (get_historical_readings get)
              start_timestamp end_timestamp) as (u & Hu & _ & _ & Hval).
  rewrite Hu. f_equal.
  rewrite (sort_by_sorted _ _ Hsorted) in Hval.
  rewrite (Hval a z Hlen Ha Hz).
  rewrite Forall_forall in Hlitres.
  unfold total_volume.
  rewrite (Hlitres a (head_elem_of _ _ Ha) ma Hma).
  rewrite (Hlitres z (last_elem_of _ _ Hz) mz Hmz).
  reflexivity.
Qed.

Lemma X16_witness :
  _calculate_usage_for_period device_db 0 500
    = Ok (max 0 (12500 / 1000.0 - 3000 / 1000.0)).
Proof.
  apply (X16_usage_from_millilitre_counters device_db 0 500
           (to_liters {[ "timestamp"%string := 10; "total_ml"%string := 3000 ]})
           (to_liters {[ "timestamp"%string := 400; "total_ml"%string := 12500 ]})
           3000 12500).
  - vm_compute. lia.
  - vm_compute. reflexivity.
  - vm_compute. reflexivity.
  - vm_compute. reflexivity.
  - vm_compute. reflexivity.
Defined.

End ManagerExtras.

(** ** The connection log *)

Module LogFacts.
Import Py Firebase UsageFacts FirebaseFacts Manager ManagerFacts LogView.

Lemma chain_weaken (lo lo' : Q) (e : event) (logs : list log) :
  lo' <= lo -> chain lo e logs -> chain lo' e logs.
Proof.
  destruct logs as [|l logs]; [auto|]. cbn [chain].
  intros Hle (Hlt & He & Hrest). repeat split; auto. lra.
Qed.

(** The events between the readings follow a connection made no later
    than one second before the first reading. *)
Lemma gap_events_chain (r0 : reading) (rest : list reading)
    (lo : Q) (tail : list log) :
  Sorted (fun x y => timestamp_key x <= timestamp_key y) (r0 :: rest) ->
  lo <= timestamp_key r0 - 1 ->
  (forall z, last (r0 :: rest) = Some z ->
     chain (timestamp_key z - 1) disconnect tail) ->
  chain lo disconnect (gap_events (r0 :: rest) ++ tail).
Proof.
  revert r0 lo. induction rest as [|r1 rest IH]; intros r0 lo Hsorted Hlo Htail.
  - cbn [gap_events app]. apply (chain_weaken (timestamp_key r0 - 1)); auto.
  - apply Sorted_inv in Hsorted as [Hsorted Hhd]. apply HdRel_inv in Hhd.
    change (gap_events (r0 :: r1 :: rest))
      with ((if Qlt_bool 120 (timestamp_key r1 - timestamp_key r0)
             then [mkLog (timestamp_key r0 + 60) disconnect;
                   mkLog (timestamp_key r1 - 1) connect]
             else []) ++ gap_events (r1 :: rest)).
    rewrite last_cons_cons in Htail.
    destruct (Qlt_bool_spec 120 (timestamp_key r1 - timestamp_key r0))
      as [Hgap|Hnear].
    + cbn [app chain log_timestamp log_event other].
      repeat split; [lra | lra |].
      apply IH; [exact Hsorted | lra | exact Htail].
    + cbn [app]. apply IH; [exact Hsorted | lra | exact Htail].
Qed.

Lemma chain_sorted (lo : Q) (e : event) (logs : list log) :
  chain lo e logs ->
  Sorted (fun a b => log_timestamp a < log_timestamp b) logs.
Proof.
  revert lo e. induction logs as [|l logs IH]; intros lo e; [constructor|].
  cbn [chain]. intros (_ & _ & Hrest). constructor; [exact (IH _ _ Hrest)|].
  destruct logs as [|l' logs]; constructor. now destruct Hrest.
Qed.

Lemma chain_alternates (lo : Q) (e : event) (logs : list log) (k : nat)
    (a b : log) :
  chain lo e logs ->
  logs !! k = Some a -> logs !! S k = Some b -> log_event a <> log_event b.
Proof.
  revert lo e k. induction logs as [|l logs IH]; intros lo e k; [discriminate|].
  cbn [chain]. intros (_ & He & Hrest). destruct k as [|k].
  - intros [= <-]. destruct logs as [|l' logs]; [discriminate|].
    intros [= <-]. destruct Hrest as (_ & He' & _).
    rewrite He, He'. now destruct e.
  - cbn [lookup list_lookup]. intros Ha Hb. exact (IH _ _ k Hrest Ha Hb).
Qed.

Lemma insert_key_head {A} (key : A -> Q) (x y : A) (l : list A) :
  key x <= key y -> insert_key key x (y :: l) = x :: y :: l.
Proof.
  intros H. cbn [insert_key].
  destruct (Qlt_bool_spec (key y) (key x)); [lra|reflexivity].
Qed.

(** Sorting a list that is in order changes nothing. *)
Lemma sort_key_sorted {A} (key : A -> Q) (l : list A) :
  Sorted (fun x y => key x <= key y) l -> sort_key key l = l.
Proof.
  induction 1 as [|x l Hl IH Hhd]; [reflexivity|].
  unfold sort_key in *. cbn [foldr]. rewrite IH.
  destruct Hhd as [|y l' Hxy]; [reflexivity|].
  now apply insert_key_head.
Qed.

Lemma Sorted_lt_le (logs : list log) :
  Sorted (fun a b => log_timestamp a < log_timestamp b) logs ->
  Sorted (fun a b => log_timestamp a <= log_timestamp b) logs.
Proof.
  induction 1 as [|x l Hl IH Hhd]; constructor; [exact IH|].
  destruct Hhd; constructor. lra.
Qed.

(** The last event between the readings is a connection. *)
Lemma gap_events_last (readings : list reading) (l : log) :
  last (gap_events readings) = Some l -> log_event l = connect.
Proof.
  induction readings as [|r0 [|r1 rest] IH]; try discriminate.
  change (gap_events (r0 :: r1 :: rest))
    with ((if Qlt_bool 120 (timestamp_key r1 - timestamp_key r0)
           then [mkLog (timestamp_key r0 + 60) disconnect;
                 mkLog (timestamp_key r1 - 1) connect]
           else []) ++ gap_events (r1 :: rest)).
  rewrite last_app.
  destruct (last (gap_events (r1 :: rest))) as [g|] eqn:E.
  - intros [= <-]. now apply IH.
  - destruct (Qlt_bool _ _); [|discriminate]. now intros [= <-].
Qed.

(** The log before the final sort. *)
Lemma connection_logs_chain (c : clock) (first_time : Q)
    (r0 : reading) (rest : list reading) (z : reading) :
  Sorted (fun x y => timestamp_key x <= timestamp_key y) (r0 :: rest) ->
  r0 !! "timestamp"%string = Some first_time ->
  last (r0 :: rest) = Some z ->
  chain (first_time - 2) connect
    (if Qlt_bool 120 (now c - timestamp_key z)
     then ([mkLog (first_time - 1) connect] ++ gap_events (r0 :: rest))
          ++ [mkLog (timestamp_key z + 60) disconnect]
     else [mkLog (first_time - 1) connect] ++ gap_events (r0 :: rest)).
Proof.
  intros Hsorted Hfirst Hlast.
  assert (timestamp_key r0 = first_time) as Hkey
    by (unfold timestamp_key; now rewrite Hfirst).
  destruct (Qlt_bool 120 (now c - timestamp_key z)).
  - rewrite <- app_assoc. cbn [app chain log_timestamp log_event other].
    repeat split; [lra|].
    apply gap_events_chain; [exact Hsorted | rewrite Hkey; lra |].
    intros z' Hz'. rewrite Hlast in Hz'. injection Hz' as <-.
    cbn [chain log_timestamp log_event]. repeat split. lra.
  - rewrite <- (app_nil_r (_ ++ gap_events _)), <- app_assoc.
    cbn [app chain log_timestamp log_event other].
    repeat split; [lra|].
    apply gap_events_chain; [exact Hsorted | rewrite Hkey; lra |].
    intros z' _. exact I.
Qed.

(** In a sorted list no key is below that of the head. *)
Lemma Sorted_head_min (key : reading -> Q) (r0 : reading)
    (rest : list reading) (r : reading) :
  Sorted (fun x y => key x <= key y) (r0 :: rest) ->
  r ∈ r0 :: rest -> key r0 <= key r.
Proof.
  intros Hsorted Hin.
  apply Sorted_StronglySorted in Hsorted;
    [|intros x y z Hxy Hyz; lra].
  apply StronglySorted_inv in Hsorted as [_ Hall].
  apply elem_of_cons in Hin as [->|Hin]; [lra|].
  rewrite Forall_forall in Hall. now apply Hall.
Qed.

Section Logs.
Variable get : string -> Q -> Q -> reply.
Variable c : clock.
Variable hours : Q.

(** What the method returns when its body succeeds on some readings. *)
Lemma get_connection_logs_cases :
  get_connection_logs get c hours = [] \/
  exists first_time r0 rest z,
    get_historical_readings get (now c - hours * 3600) (now c) = r0 :: rest /\
    r0 !! "timestamp"%string = Some first_time /\
    last (r0 :: rest) = Some z /\
    chain (first_time - 2) connect (get_connection_logs get c hours) /\
    get_connection_logs get c hours =
      (if Qlt_bool 120 (now c - timestamp_key z)
       then ([mkLog (first_time - 1) connect] ++ gap_events (r0 :: rest))
            ++ [mkLog (timestamp_key z + 60) disconnect]
       else [mkLog (first_time - 1) connect] ++ gap_events (r0 :: rest)).
Proof.
  unfold get_connection_logs, get_connection_logs_body.
  destruct (get_historical_readings_sorted get (now c - hours * 3600) (now c))
    as [Hsorted _].
  destruct (get_historical_readings get (now c - hours * 3600) (now c))
    as [|r0 rest] eqn:E; [now left|].
  rewrite (sort_by_sorted _ _ Hsorted). cbn [head mbind option_bind].
  destruct (r0 !! "timestamp"%string) as [first_time|] eqn:Hfirst; [|now left].
  cbn [mbind option_bind].
  destruct (last (r0 :: rest)) as [z|] eqn:Hlast; [|now left].
  cbn [mbind option_bind default]. right.
  exists first_time, r0, rest, z.
  pose proof (connection_logs_chain c first_time r0 rest z Hsorted Hfirst Hlast)
    as Hchain.
  assert (sort_key log_timestamp
            (if Qlt_bool 120 (now c - timestamp_key z)
             then ([mkLog (first_time - 1) connect] ++ gap_events (r0 :: rest))
                  ++ [mkLog (timestamp_key z + 60) disconnect]
             else [mkLog (first_time - 1) connect] ++ gap_events (r0 :: rest))
          = (if Qlt_bool 120 (now c - timestamp_key z)
             then ([mkLog (first_time - 1) connect] ++ gap_events (r0 :: rest))
                  ++ [mkLog (timestamp_key z + 60) disconnect]
             else [mkLog (first_time - 1) connect] ++ gap_events (r0 :: rest)))
    as Hsort.
  { apply sort_key_sorted, Sorted_lt_le. exact (chain_sorted _ _ _ Hchain). }
  rewrite Hsort. repeat split; auto.
Qed.

End Logs.

End LogFacts.

Section LogExtras.
Import Py Firebase UsageFacts FirebaseFacts Manager ManagerFacts LogView.
Import LogFacts MoreExamples.

(** X17. With [demo_mode] off, the connection log that
    [get_connection_logs] derives from the readings is consistent,
    whatever the database holds: its timestamps increase strictly, it
    starts with a connection, and connections and disconnections
    alternate. *)
Theorem X17_connection_log_alternates
    (get : string -> Q -> Q -> reply) (c : clock) (hours : Q) :
  Sorted (fun a b => log_timestamp a < log_timestamp b)
    (get_connection_logs get c hours) /\
  (forall a, head (get_connection_logs get c hours) = Some a ->
     log_event a = connect) /\
  (forall (k : nat) (a b : log),
     get_connection_logs get c hours !! k = Some a ->
     get_connection_logs get c hours !! S k = Some b ->
     log_event a <> log_event b).
Proof.
  destruct (get_connection_logs_cases get c hours)
    as [-> | (t & r0 & rest & z & _ & _ & _ & Hchain & _)].
  - split; [constructor|]. split; [discriminate|]. discriminate.
  - split; [exact (chain_sorted _ _ _ Hchain)|]. split.
    + destruct (get_connection_logs get c hours) as [|l logs]; [discriminate|].
      intros a [= <-]. now destruct Hchain as (_ & He & _).
    + intros k a b. exact (chain_alternates _ _ _ k a b Hchain).
Qed.

(** X18. The log ends with a disconnection exactly when the latest
    reading is more than 120 seconds old: a device whose latest reading
    is at most two minutes old is shown as connected. *)
Theorem X18_log_ends_connected_iff_recent_reading
    (get : string -> Q -> Q -> reply) (c : clock) (hours : Q)
    (l : log) (z : reading) :
  last (get_connection_logs get c hours) = Some l ->
  last (get_historical_readings get (now c - hours * 3600) (now c)) = Some z ->
  (log_event l = disconnect <-> 120 < now c - timestamp_key z).
Proof.
  intros Hl Hz.
  destruct (get_connection_logs_cases get c hours)
    as [E | (t & r0 & rest & z' & Hreadings & _ & Hlast & _ & E)].
  - rewrite E in Hl. discriminate.
  - rewrite Hreadings, Hlast in Hz. injection Hz as ->.
    rewrite E in Hl.
    destruct (Qlt_bool_spec 120 (now c - timestamp_key z)) as [Hold|Hrecent].
    + rewrite last_snoc in Hl. injection Hl as <-. cbn [log_event]. tauto.
    + split; [|lra]. intros Hev. exfalso.
      rewrite last_app in Hl.
      destruct (last (gap_events (r0 :: rest))) as [g|] eqn:Hg.
      * injection Hl as <-. rewrite (gap_events_last _ _ Hg) in Hev.
        discriminate.
      * cbn in Hl. injection Hl as <-. discriminate.
Qed.

Lemma X18_witness :
  log_event (mkLog (400 + 60) disconnect) = disconnect <->
  120 < now saturday_evening
        - timestamp_key
            (to_liters {[ "timestamp"%string := 400;
                          "total_ml"%string := 12500 ]}).
Proof.
  apply (X18_log_ends_connected_iff_recent_reading device_db saturday_evening
           300).
  - vm_compute. reflexivity.
  - vm_compute. reflexivity.
Defined.

(** X19. A reading without a timestamp, among readings whose timestamps
    are positive, sorts first and makes the method fail on
    [first_reading.get("timestamp") - 1]: the failure is swallowed and
    the log is empty, although readings exist. *)
Theorem X19_untimed_reading_empties_log
    (get : string -> Q -> Q -> reply) (c : clock) (hours : Q) (r : reading) :
  r ∈ get_historical_readings get (now c - hours * 3600) (now c) ->
  r !! "timestamp"%string = None ->
  Forall (fun x => forall t, x !! "timestamp"%string = Some t -> 0 < t)
    (get_historical_readings get (now c - hours * 3600) (now c)) ->
  get_connection_logs get c hours = [].
Proof.
  intros Hin Hnone Hpos.
  destruct (get_connection_logs_cases get c hours)
    as [E | (t & r0 & rest & z & Hreadings & Hfirst & _)]; [exact E|].
  exfalso.
  destruct (get_historical_readings_sorted get (now c - hours * 3600) (now c))
    as [Hsorted _].
  rewrite Hreadings in *.
  pose proof (Sorted_head_min timestamp_key r0 rest r Hsorted Hin) as Hmin.
  apply Forall_cons in Hpos as [Hpos _]. specialize (Hpos t Hfirst).
  unfold timestamp_key in Hmin. rewrite Hfirst, Hnone in Hmin.
  simpl in Hmin. lra.
Qed.

Lemma X19_witness : get_connection_logs untimed_db saturday_evening 300 = [].
Proof.
  apply (X19_untimed_reading_empties_log untimed_db saturday_evening 300
           (to_liters {[ "total_ml"%string := 100 ]})).
  - vm_compute. left.
  - vm_compute. reflexivity.
  - set (l := get_historical_readings _ _ _). vm_compute in l. subst l.
    repeat (apply Forall_cons; split;
            [intros t Ht; vm_compute in Ht;
             first [discriminate Ht | injection Ht as <-; reflexivity]|]).
    apply Forall_nil. exact I.
Defined.

End LogExtras.

(** ** The order of the readings *)

Module OrderFacts.
Import Py Firebase UsageFacts FirebaseFacts Manager ManagerFacts LogFacts.

(** Two sorted arrangements of the same readings are equal when no two
    readings share a key. *)
Lemma sorted_perm_unique (key : reading -> Q) (l1 l2 : list reading) :
  (forall x y, x ∈ l1 -> y ∈ l1 -> key x == key y -> x = y) ->
  Sorted (fun x y => key x <= key y) l1 ->
  Sorted (fun x y => key x <= key y) l2 ->
  l1 ≡ₚ l2 -> l1 = l2.
Proof.
  revert l2. induction l1 as [|a l1 IH]; intros l2 Hinj H1 H2 Hperm.
  - now apply Permutation_nil_l.
  - destruct l2 as [|b l2].
    + now apply Permutation_nil_r in Hperm.
    + assert (a ∈ b :: l2) as Ha by (rewrite <- Hperm; left).
      assert (b ∈ a :: l1) as Hb by (rewrite Hperm; left).
      pose proof (Sorted_head_min key a l1 b H1 Hb) as Hab.
      pose proof (Sorted_head_min key b l2 a H2 Ha) as Hba.
      assert (a = b) as <-.
      { apply Hinj; [left | exact Hb | lra]. }
      f_equal. apply IH.
      * intros x y Hx Hy. apply Hinj; now right.
      * now apply Sorted_inv in H1.
      * now apply Sorted_inv in H2.
      * now apply Permutation_cons_inv in Hperm.
Qed.

Lemma sort_by_perm_unique (key : reading -> Q) (l1 l2 : list reading) :
  (forall x y, x ∈ l1 -> y ∈ l1 -> key x == key y -> x = y) ->
  l1 ≡ₚ l2 -> sort_by key l1 = sort_by key l2.
Proof.
  intros Hinj Hperm. apply (sorted_perm_unique key).
  - intros x y Hx Hy. apply Hinj; now rewrite <- (sort_by_perm key l1).
  - apply sort_by_is_sorted.
  - apply sort_by_is_sorted.
  - now rewrite !sort_by_perm.
Qed.

End OrderFacts.

Section OrderExtras.
Import Py Firebase UsageFacts FirebaseFacts Manager ManagerFacts OrderFacts.
Import Examples.

(** X20. The usage over a period does not depend on the order in which
    the readings arrive, as long as no two of them have the same
    timestamp (a missing one counting as 0). *)
Theorem X20_usage_independent_of_arrival_order
    (get get' : Q -> Q -> list reading) (start_timestamp end_timestamp : Q) :
  get start_timestamp end_timestamp ≡ₚ get' start_timestamp end_timestamp ->
  (forall x y,
     x ∈ get start_timestamp end_timestamp ->
     y ∈ get start_timestamp end_timestamp ->
     timestamp_key x == timestamp_key y -> x = y) ->
  calculate_usage_for_period get start_timestamp end_timestamp
  = calculate_usage_for_period get' start_timestamp end_timestamp.
Proof.
  intros Hperm Hinj.
  pose proof (sort_by_perm_unique timestamp_key _ _ Hinj Hperm) as Hsort.
  unfold calculate_usage_for_period.
  destruct (get start_timestamp end_timestamp) as [|r rs],
           (get' start_timestamp end_timestamp) as [|r' rs'].
  - reflexivity.
  - now apply Permutation_nil_l in Hperm.
  - now apply Permutation_nil_r in Hperm.
  - now rewrite Hsort.
Qed.

Lemma X20_witness :
  calculate_usage_for_period (fun _ _ => metered) 0 100
  = calculate_usage_for_period (fun _ _ => reverse metered) 0 100.
Proof.
  apply (X20_usage_independent_of_arrival_order
           (fun _ _ => metered) (fun _ _ => reverse metered) 0 100).
  - symmetry. apply reverse_Permutation.
  - intros x y Hx Hy.
    repeat (apply elem_of_cons in Hx as [->|Hx]);
      try (now apply elem_of_nil in Hx);
      repeat (apply elem_of_cons in Hy as [->|Hy]);
      try (now apply elem_of_nil in Hy);
      intros H; try reflexivity; vm_compute in H; discriminate H.
Defined.

End OrderExtras.

(** ** Demo values and alerts *)

Module AlertFacts.
Import Py Firebase UsageFacts FirebaseFacts Manager ManagerFacts.
Import Generators GeneratorFacts Utils Dashboard.

Lemma hour_factors_bounds (h : Z) :
  0.1 <= default 1.0 (hour_factors !! h) <= 1.5.
Proof.
  destruct (hour_factors !! h) as [q|] eqn:E; simpl.
  - unfold hour_factors in E.
    apply (elem_of_list_to_map_2 (M:=gmap Z)) in E.
    repeat (apply elem_of_cons in E as [E|E];
            [injection E as -> ->; split; lra|]).
    now apply elem_of_nil in E.
  - split; unfold Qle; simpl; lia.
Qed.

Lemma day_factors_bounds (d : Z) :
  0.9 <= default 1.0 (day_factors !! d) <= 1.5.
Proof.
  destruct (day_factors !! d) as [q|] eqn:E; simpl.
  - unfold day_factors in E.
    apply (elem_of_list_to_map_2 (M:=gmap Z)) in E.
    repeat (apply elem_of_cons in E as [E|E];
            [injection E as -> ->; split; lra|]).
    now apply elem_of_nil in E.
  - split; unfold Qle; simpl; lia.
Qed.

Lemma product_bounds (b f u flo fhi ulo uhi : Q) :
  0 <= b -> 0 <= flo -> 0 <= ulo ->
  flo <= f <= fhi -> ulo <= u <= uhi ->
  b * flo * ulo <= b * f * u <= b * fhi * uhi.
Proof.
  intros Hb Hflo Hulo [Hf1 Hf2] [Hu1 Hu2].
  assert (forall x y z, 0 <= z -> x <= y -> z * x <= z * y) as Hl.
  { intros x y z Hz Hxy. rewrite !(Qmult_comm z).
    now apply Qmult_le_compat_r. }
  assert (b * flo <= b * f) by (apply Hl; lra).
  assert (b * f <= b * fhi) by (apply Hl; lra).
  assert (0 <= b * flo) by (apply Qmult_le_0_compat; lra).
  assert (0 <= b * f) by lra.
  split.
  - apply Qle_trans with (b * f * ulo).
    + apply Qmult_le_compat_r; lra.
    + apply Hl; lra.
  - apply Qle_trans with (b * fhi * u).
    + apply Qmult_le_compat_r; lra.
    + apply Hl; lra.
Qed.

Lemma demo_daily_usage_bounds get (c : clock) (u : uniform_draws) :
  in_range u -> 194.4 <= get_daily_usage true get c u <= 396.
Proof.
  intros (_ & _ & _ & _ & Hu). unfold get_daily_usage.
  pose proof (day_factors_bounds (weekday c)) as Hf.
  pose proof (product_bounds 240.0 _ _ 0.9 1.5 0.9 1.1
                ltac:(lra) ltac:(lra) ltac:(lra) Hf Hu) as [H1 H2].
  split.
  - apply Qle_trans with (240.0 * 0.9 * 0.9); [|exact H1].
    unfold Qle; simpl; lia.
  - apply Qle_trans with (240.0 * 1.5 * 1.1); [exact H2|].
    unfold Qle; simpl; lia.
Qed.

(** *** The demo reading *)

Lemma hour_factor_bounds (h : Z) :
  (0 <= h <= 23)%Z ->
  0.5 <= hour_factor h <= 1.8 /\
  (~ (17 <= h <= 20)%Z -> hour_factor h <= 1.5).
Proof.
  intros Hh.
  assert (h = 0 \/ h = 1 \/ h = 2 \/ h = 3 \/ h = 4 \/ h = 5 \/ h = 6 \/
          h = 7 \/ h = 8 \/ h = 9 \/ h = 10 \/ h = 11 \/ h = 12 \/
          h = 13 \/ h = 14 \/ h = 15 \/ h = 16 \/ h = 17 \/ h = 18 \/
          h = 19 \/ h = 20 \/ h = 21 \/ h = 22 \/ h = 23)%Z as Hcases by lia.
  repeat (destruct Hcases as [-> | Hcases]); try subst h;
    (split; [split; vm_compute; discriminate|]);
    intros Hne; first [lia | vm_compute; discriminate].
Qed.

Lemma day_factor_bounds (d : Z) :
  1.0 <= day_factor d <= 1.3 /\ (~ (5 <= d)%Z -> day_factor d <= 1.0).
Proof.
  unfold day_factor. destruct (5 <=? d)%Z eqn:E.
  - apply Z.leb_le in E. split; [split; lra|]. intros H. now destruct H.
  - split; [split; lra|]. intros _. lra.
Qed.

Lemma product_le (a b a' b' : Q) :
  0 <= a -> 0 <= b -> a <= a' -> b <= b' -> a * b <= a' * b'.
Proof.
  intros Ha Hb Haa Hbb. apply Qle_trans with (a' * b).
  - apply Qmult_le_compat_r; assumption.
  - rewrite !(Qmult_comm a'). apply Qmult_le_compat_r; lra.
Qed.

(** *** Alerts *)

Lemma check_quiet data thresholds key limit exceeds msg sev alerts :
  (forall value threshold,
     data !! key = Some value -> thresholds !! limit = Some threshold ->
     exceeds value threshold = false) ->
  check data thresholds key limit exceeds msg sev alerts = alerts.
Proof.
  intros H. unfold check.
  destruct (data !! key) as [value|]; [|reflexivity].
  destruct (thresholds !! limit) as [threshold|]; [|reflexivity].
  now rewrite (H value threshold).
Qed.

Lemma check_elem_of data thresholds key limit exceeds msg sev alerts a :
  a ∈ check data thresholds key limit exceeds msg sev alerts ->
  a ∈ alerts \/
  exists value threshold,
    data !! key = Some value /\ thresholds !! limit = Some threshold /\
    exceeds value threshold = true /\ a = mkAlert (msg value threshold) sev.
Proof.
  unfold check.
  destruct (data !! key) as [value|]; [|now left].
  destruct (thresholds !! limit) as [threshold|]; [|now left].
  destruct (exceeds value threshold) eqn:E; [|now left].
  rewrite elem_of_app, list_elem_of_singleton. intros [H | ->]; [now left|].
  right. exists value, threshold. auto.
Qed.

Lemma Qlt_bool_false (a b : Q) : b <= a -> Qlt_bool a b = false.
Proof. intros H. destruct (Qlt_bool_spec a b); [lra|reflexivity]. Qed.

(** No alert when every value present is within its limits. *)
Lemma check_alerts_quiet (data thresholds : gmap string Q) :
  (forall p t, data !! "pressure"%string = Some p ->
     thresholds !! "pressure_high"%string = Some t -> p <= t) ->
  (forall p t, data !! "pressure"%string = Some p ->
     thresholds !! "pressure_low"%string = Some t -> t <= p) ->
  (forall f t, data !! "flow_rate"%string = Some f ->
     thresholds !! "flow_high"%string = Some t -> f <= t) ->
  (forall v t, data !! "daily_usage"%string = Some v ->
     thresholds !! "daily_usage_high"%string = Some t -> v <= t) ->
  check_alerts (Some data) (Some thresholds) = [].
Proof.
  intros Hhigh Hlow Hflow Hdaily. unfold check_alerts.
  destruct (falsy (Some data) || falsy (Some thresholds)); [reflexivity|].
  rewrite !check_quiet; [reflexivity| | | |];
    intros value threshold Hv Ht; apply Qlt_bool_false; eauto.
Qed.

End AlertFacts.

Section AlertExtras.
Import Py Firebase UsageFacts FirebaseFacts Manager ManagerFacts.
Import Generators GeneratorFacts Utils Dashboard AlertFacts MoreExamples.

(** X21. In demo mode the usage figures stay inside fixed bounds for
    every hour and weekday, also those missing from the factor tables.
    For uniform draws within 0.01 of the ranges given to
    [random.uniform], which leaves room for the rounding of the draw and
    of the products, the hourly usage lies between 1.9 and 46 litres and
    the daily usage between 192 and 400, below the default daily
    threshold of 500. *)
Theorem X21_demo_usage_bounds
    (get : string -> Q -> Q -> reply) (c : clock) (u : uniform_draws) :
  0.79 <= hourly_u u <= 1.21 ->
  0.89 <= daily_u u <= 1.11 ->
  1.9 <= get_hourly_usage true get c u <= 46 /\
  192 <= get_daily_usage true get c u <= 400.
Proof.
  intros Hhourly Hdaily. unfold get_hourly_usage, get_daily_usage.
  pose proof (hour_factors_bounds (hour c)) as Hhf.
  pose proof (day_factors_bounds (weekday c)) as Hdf.
  pose proof (product_bounds 25.0 _ _ 0.1 1.5 0.79 1.21
                ltac:(lra) ltac:(lra) ltac:(lra) Hhf Hhourly) as [H1 H2].
  pose proof (product_bounds 240.0 _ _ 0.9 1.5 0.89 1.11
                ltac:(lra) ltac:(lra) ltac:(lra) Hdf Hdaily) as [H3 H4].
  repeat split.
  - apply Qle_trans with (25.0 * 0.1 * 0.79); [|exact H1].
    unfold Qle; simpl; lia.
  - apply Qle_trans with (25.0 * 1.5 * 1.21); [exact H2|].
    unfold Qle; simpl; lia.
  - apply Qle_trans with (240.0 * 0.9 * 0.89); [|exact H3].
    unfold Qle; simpl; lia.
  - apply Qle_trans with (240.0 * 1.5 * 1.11); [exact H4|].
    unfold Qle; simpl; lia.
Qed.

Lemma X21_witness :
  1.9 <= get_hourly_usage true offline_db saturday_evening top_draws <= 46 /\
  192 <= get_daily_usage true offline_db saturday_evening top_draws <= 400.
Proof.
  apply (X21_demo_usage_bounds offline_db saturday_evening top_draws).
  - vm_compute. intuition discriminate.
  - vm_compute. intuition discriminate.
Defined.

(** X22. With [pressure_low <= pressure_high], one call never reports the
    pressure both as too high and as too low. *)
Theorem X22_no_contradictory_pressure_alerts
    (data : option (gmap string Q)) (thresholds : gmap string Q)
    (lo hi : Q) (a b : alert) :
  thresholds !! "pressure_low"%string = Some lo ->
  thresholds !! "pressure_high"%string = Some hi ->
  lo <= hi ->
  a ∈ check_alerts data (Some thresholds) ->
  b ∈ check_alerts data (Some thresholds) ->
  ~ ((exists p t, alert_message a = HighPressure p t) /\
     (exists p t, alert_message b = LowPressure p t)).
Proof.
  intros Hlo Hhi Hle Ha Hb [(p & t & Hma) (p' & t' & Hmb)].
  unfold check_alerts in Ha, Hb.
  destruct (falsy data || falsy (Some thresholds));
    [now apply elem_of_nil in Ha|].
  destruct data as [data|]; [|now apply elem_of_nil in Ha].
  repeat (apply check_elem_of in Ha
            as [Ha | (va & ta & Hva & Hta & Hea & ->)]);
    try (now apply elem_of_nil in Ha); try discriminate Hma.
  repeat (apply check_elem_of in Hb
            as [Hb | (vb & tb & Hvb & Htb & Heb & ->)]);
    try (now apply elem_of_nil in Hb); try discriminate Hmb.
  rewrite Hva in Hvb. injection Hvb as <-.
  rewrite Hhi in Hta. injection Hta as <-.
  rewrite Hlo in Htb. injection Htb as <-.
  destruct (Qlt_bool_spec hi va); [|discriminate].
  destruct (Qlt_bool_spec va lo); [|discriminate].
  lra.
Qed.

Lemma X22_witness :
  ~ ((exists p t,
        alert_message (mkAlert (HighPressure 7 6.0) high) = HighPressure p t) /\
     (exists p t,
        alert_message (mkAlert (HighPressure 7 6.0) high) = LowPressure p t)).
Proof.
  apply (X22_no_contradictory_pressure_alerts
           (Some {[ "pressure"%string := 7 ]}) default_thresholds 1.0 6.0).
  - reflexivity.
  - reflexivity.
  - vm_compute. discriminate.
  - vm_compute. left.
  - vm_compute. left.
Defined.

(** X23. The alerts that [display_dashboard] computes outside the demo
    session are always empty.  A manager in live mode has no latest
    readings, so nothing is checked; a manager in demo mode produces
    readings that lie inside the thresholds in use, the defaults or the
    demo user's, whenever its uniform draws lie in their ranges. *)
Theorem X23_dashboard_never_alerts
    (demo_mode : bool) (get : string -> Q -> Q -> reply) (user_id : bool)
    (d : realtime_draws) (c : clock) (u : uniform_draws) :
  in_range u ->
  display_dashboard_alerts demo_mode get user_id false d c u = [].
Proof.
  intros Hu. unfold display_dashboard_alerts, get_real_time_data.
  destruct demo_mode; [|reflexivity].
  pose proof (demo_daily_usage_bounds get c u Hu) as Hdaily.
  destruct Hu as (Hflow & Hpressure & _).
  unfold get_latest_readings, get_user_settings.
  set (hourly := get_hourly_usage true get c u).
  set (daily := get_daily_usage true get c u) in *.
  clearbody hourly daily.
  rewrite bool_decide_eq_false_2 by apply insert_non_empty.
  assert (check_alerts
            (Some (<["daily_usage"%string := daily]>
                     (<["hourly_usage"%string := hourly]>
                        {[ "timestamp"%string := now c;
                           "flow_rate"%string := 8.5 + flow_u u;
                           "pressure"%string := 3.2 + pressure_u u;
                           "temperature"%string := 21.5 + temperature_u u ]})))
            (Some default_thresholds) = []) as Hquiet.
  { apply check_alerts_quiet; intros v t Hv Ht;
      apply (inj Some) in Ht; subst t;
      (rewrite lookup_insert_eq in Hv ||
       (do 3 (rewrite lookup_insert_ne in Hv by discriminate);
        first [rewrite lookup_insert_eq in Hv
              | rewrite lookup_insert_ne in Hv by discriminate;
                rewrite lookup_insert_eq in Hv]));
      apply (inj Some) in Hv; subst v; lra. }
  destruct user_id; exact Hquiet.
Qed.

Lemma X23_witness :
  display_dashboard_alerts true offline_db false false
    (mkRealtimeDraws 0 0 0 0) saturday_evening top_draws = [].
Proof.
  apply (X23_dashboard_never_alerts true offline_db false
           (mkRealtimeDraws 0 0 0 0) saturday_evening top_draws).
  vm_compute. intuition discriminate.
Defined.

(** X24. For a uniform draw within 0.01 of the range given to
    [random.uniform], which leaves room for the rounding of the draw and
    of the products, the flow rate of a demo reading lies between 3.1
    and 22.7 L/min for every hour of the day and every weekday, and it
    exceeds 20 L/min, the default high-flow threshold, only in the
    evening peak (17 to 20 h) of a weekend day. *)
Theorem X24_demo_reading_flow_bounds (c : clock) (u : reading_draws) :
  (0 <= hour c <= 23)%Z ->
  0.79 <= rate_u u <= 1.21 ->
  exists flow_rate : Q,
    get_latest_reading_demo c u !! "flow_rate"%string = Some flow_rate /\
    3.1 <= flow_rate <= 22.7 /\
    (20 < flow_rate -> (5 <= weekday c)%Z /\ (17 <= hour c <= 20)%Z).
Proof.
  intros Hhour [Hu1 Hu2]. unfold get_latest_reading_demo.
  eexists. split.
  { now rewrite lookup_insert_ne, lookup_insert_eq by discriminate. }
  destruct (hour_factor_bounds (hour c) Hhour) as [[Hh1 Hh2] Hh3].
  destruct (day_factor_bounds (weekday c)) as [[Hd1 Hd2] Hd3].
  set (hf := hour_factor (hour c)) in *.
  set (df := day_factor (weekday c)) in *.
  set (ru := rate_u u) in *. clearbody hf df ru.
  assert (forall hmax dmax, hf <= hmax -> df <= dmax ->
            8.0 * hf * df * ru <= 8.0 * hmax * dmax * 1.21) as Hup.
  { intros hmax dmax Hhm Hdm.
    apply product_le; [|lra|
                       apply product_le; [|lra|
                                          apply product_le; lra|exact Hdm]|exact Hu2].
    - apply Qmult_le_0_compat; [apply Qmult_le_0_compat|]; lra.
    - apply Qmult_le_0_compat; lra. }
  split; [split|].
  - apply Qle_trans with (8.0 * 0.5 * 1.0 * 0.79); [vm_compute; discriminate|].
    apply product_le; [vm_compute; discriminate | lra | | exact Hu1].
    apply product_le; [vm_compute; discriminate | lra | | exact Hd1].
    apply product_le; lra.
  - apply Qle_trans with (8.0 * 1.8 * 1.3 * 1.21);
      [now apply Hup | vm_compute; discriminate].
  - intros Hbig.
    destruct (decide (5 <= weekday c)%Z) as [Hweekend|Hweek].
    + split; [exact Hweekend|].
      destruct (decide (17 <= hour c <= 20)%Z) as [He|He]; [exact He|].
      exfalso. pose proof (Hup 1.5 1.3 (Hh3 He) Hd2) as H.
      assert (8.0 * 1.5 * 1.3 * 1.21 < 20) by (vm_compute; reflexivity). lra.
    + exfalso. pose proof (Hup 1.8 1.0 Hh2 (Hd3 Hweek)) as H.
      assert (8.0 * 1.8 * 1.0 * 1.21 < 20) by (vm_compute; reflexivity). lra.
Qed.

Lemma X24_witness :
  exists flow_rate : Q,
    get_latest_reading_demo saturday_evening top_reading_draws
      !! "flow_rate"%string = Some flow_rate /\
    3.1 <= flow_rate <= 22.7 /\
    (20 < flow_rate ->
     (5 <= weekday saturday_evening)%Z /\
     (17 <= hour saturday_evening <= 20)%Z).
Proof.
  apply (X24_demo_reading_flow_bounds saturday_evening top_reading_draws).
  - vm_compute. intuition discriminate.
  - vm_compute. intuition discriminate.
Defined.

(** X25. Whatever the draws, the demo real-time data never report a flow
    rate below 0.1, a pressure below 0.5 or a volume below 0.01. *)
Theorem X25_demo_realtime_values_positive (now : Q) (d : realtime_draws) :
  exists flow_rate pressure volume : Q,
    generate_demo_realtime_data now d !! "flow_rate"%string = Some flow_rate /\
    generate_demo_realtime_data now d !! "pressure"%string = Some pressure /\
    generate_demo_realtime_data now d !! "volume"%string = Some volume /\
    0.1 <= flow_rate /\ 0.5 <= pressure /\ 0.01 <= volume.
Proof.
  unfold generate_demo_realtime_data.
  pose proof (max_ge_l 0.1 (8.5 + flow_draw d)) as Hflow.
  pose proof (max_ge_l 0.5 (3.2 + pressure_draw d)) as Hpressure.
  set (f := max 0.1 (8.5 + flow_draw d)) in *.
  set (p := max 0.5 (3.2 + pressure_draw d)) in *.
  clearbody f p.
  exists (round2 f), (round2 p), (round2 (f * 60 / 1000)).
  split; [now rewrite lookup_insert_ne, lookup_insert_eq by discriminate|].
  split; [now rewrite !lookup_insert_ne, lookup_insert_eq by discriminate|].
  split; [now rewrite !lookup_insert_ne, lookup_insert_eq by discriminate|].
  split; [|split].
  - apply Qle_trans with (round2 0.1); [vm_compute; discriminate|].
    now apply round2_mono.
  - apply Qle_trans with (round2 0.5); [vm_compute; discriminate|].
    now apply round2_mono.
  - apply Qle_trans with (round2 (0.1 * 60 / 1000)); [vm_compute; discriminate|].
    apply round2_mono. unfold Qdiv.
    apply Qmult_le_compat_r; [lra | vm_compute; discriminate].
Qed.

End AlertExtras.
